(** * Pipeline verbs of [notebooks/pydatapipelines.ipynb]

    A shallow embedding of the notebook's pipe mechanism ([PipeVerb],
    [pipeverb], [make_pipesource], [singledispatch_pipeverb]) and of the
    verbs the notebook defines with it ([append_col], [groupby],
    [summarize_mean], [my_verb]), together with the parts of Python the
    mechanism relies on: the binary operator protocol of [>>], attribute
    lookup along a class's MRO, the binding of call arguments to
    parameters, and [functools.singledispatch].

    Python objects are values of type [val]; mutable containers live in a
    heap and are referred to by location, so that aliasing and in-place
    mutation can be expressed.  Python code is embedded in the monad [M]
    of heap-passing computations that either return a value or raise.

    The classes and the functions make up a [world].  The cells of the
    notebook build it up, by [register] and [make_pipesource]; a pipeline
    is evaluated in a given world and does not change it.  pandas is no
    part of the repository: its methods are parameters of the notebook's
    world.  Abstract base classes, which [functools.singledispatch] treats
    apart, do not occur and are not modelled. *)

From Stdlib Require Import ZArith Ascii.
From stdpp Require Import base option list strings gmap pretty.

#[local] Set Warnings "-register-all".
Open Scope string_scope.
Open Scope list_scope.
Open Scope Z_scope.

(** ** Values, heap, exceptions *)

(** A class is identified by the name its [repr] prints: [int] for a
    builtin, [module.QualName] otherwise. *)
Abbreviation cname := string (only parsing).
(** A function object is identified by its name in the function store. *)
Abbreviation fid := string (only parsing).
Abbreviation loc := nat (only parsing).

Inductive val : Type :=
| VNone
| VNotImplemented
| VInt (z : Z)
| VStr (s : string)
| VRef (c : cname) (l : loc)
    (* an instance of class [c] whose contents live at heap location [l] *)
| VVerb (pipe_func : fid) (args : list val) (kwargs : list (string * val)).
    (* a PipeVerb: self.pipe_func, self.args, self.kwargs *)

Abbreviation kwdict := (list (string * val)) (only parsing).

(** Heap objects: the items of a list (or of an instance of a subclass of
    [list]), or the fields of any other instance. *)
Inductive hobj : Type :=
| HList (items : list val)
| HObj (fields : list val).

Abbreviation heap := (list hobj) (only parsing).

(** Only [NotImplementedError] is raised by the notebook itself and carries
    the notebook's message; the interpreter's own errors are kept apart by
    kind, their messages are not modelled. *)
Inductive exn : Type :=
| NotImplementedError (msg : string)
| TypeError
| ValueError
| AttributeError
| OtherError (kind msg : string).

Inductive res (A : Type) : Type :=
| Ret (a : A)
| Raise (e : exn).
Arguments Ret {A} a.
Arguments Raise {A} e.

(** ** The monad of Python computations *)

Definition M (A : Type) : Type := heap -> res A * heap.

Definition ret {A} (a : A) : M A := fun h => (Ret a, h).
Definition raise {A} (e : exn) : M A := fun h => (Raise e, h).
Definition bind {A B} (c : M A) (k : A -> M B) : M B :=
  fun h => match c h with
           | (Ret a, h') => k a h'
           | (Raise e, h') => (Raise e, h')
           end.

Notation "'let*' x ':=' c 'in' k" := (bind c (fun x => k))
  (at level 10, x name, c at level 100, k at level 200).

(** Allocation of a fresh heap object: the new location is the next free
    index. *)
Definition alloc (o : hobj) : M loc := fun h => (Ret (length h), h ++ [o]).
Definition load (l : loc) : M hobj :=
  fun h => match h !! l with
           | Some o => (Ret o, h)
           | None => (Raise (OtherError "SystemError" "dangling reference"), h)
           end.

Definition store (l : loc) (o : hobj) : M val :=
  fun h => (Ret VNone, <[l := o]> h).

(** ** Types of values *)

Definition PipeVerb : cname := "__main__.PipeVerb".

(** [type(v)], equally [v.__class__]. *)
Definition type_of (v : val) : cname :=
  match v with
  | VNone => "NoneType"
  | VNotImplemented => "NotImplementedType"
  | VInt _ => "int"
  | VStr _ => "str"
  | VRef c _ => c
  | VVerb _ _ _ => PipeVerb
  end.

(** [str(cls)], as [%s] formats a class. *)
Definition type_repr (c : cname) : string := "<class '" +:+ c +:+ "'>".

(** [isinstance(other, PipeVerb)]: the notebook never subclasses
    [PipeVerb], its instances are exactly the [VVerb] values. *)
Definition is_PipeVerb (v : val) : bool :=
  match v with VVerb _ _ _ => true | _ => false end.

Definition is_NotImplemented (v : val) : bool :=
  match v with VNotImplemented => true | _ => false end.

(** ** Classes and their shift operations *)

(** A Python function used as a binary method, [f(self, other)], with the
    truth value of [getattr(f, 'pipeoperator', False)]. *)
Record pyfunction : Type := PyFunction {
  fn_pipeoperator : bool;
  fn_code : val -> val -> M val }.

(** What a class can hold under [__rshift__]: a function defined elsewhere,
    or the closure [__rshift__] that [make_pipesource] creates.  The closure
    looks [__orig_rshift__] up when it runs, so it is kept symbolic and is
    given its meaning by the evaluator below. *)
Inductive method : Type :=
| MFun (f : pyfunction)
| MPipe.

(** What a class can hold under [__rrshift__]: a function defined
    elsewhere, or [PipeVerb.__rrshift__]. *)
Inductive rmethod : Type :=
| RFun (f : pyfunction)
| RPipeVerb.

(** The part of a class the pipe mechanism reads or writes.  [cls_bases] is
    the class's MRO without the class itself (its head) and without
    [object] (its last element). *)
Record pyclass : Type := PyClass {
  cls_bases : list cname;
  cls_immutable : bool;   (* builtin or extension type: setattr raises TypeError *)
  cls_rshift : option method;
  cls_orig_rshift : option pyfunction;
  cls_rrshift : option rmethod }.

(** A class that defines nothing of interest and derives from [object]. *)
Definition plain_class : pyclass :=
  {| cls_bases := []; cls_immutable := false; cls_rshift := None;
     cls_orig_rshift := None; cls_rrshift := None |}.

Definition builtin_plain : pyclass :=
  {| cls_bases := []; cls_immutable := true; cls_rshift := None;
     cls_orig_rshift := None; cls_rrshift := None |}.

(** [int.__rshift__] and [int.__rrshift__]. *)
Definition int_shift (x y : Z) : M val :=
  if y <? 0 then raise ValueError else ret (VInt (Z.shiftr x y)).

Definition int___rshift__ : pyfunction :=
  {| fn_pipeoperator := false;
     fn_code := fun self other =>
       match self, other with
       | VInt x, VInt y => int_shift x y
       | _, _ => ret VNotImplemented
       end |}.

Definition int___rrshift__ : pyfunction :=
  {| fn_pipeoperator := false;
     fn_code := fun self other =>
       match self, other with
       | VInt y, VInt x => int_shift x y
       | _, _ => ret VNotImplemented
       end |}.

Definition int_class : pyclass :=
  {| cls_bases := []; cls_immutable := true;
     cls_rshift := Some (MFun int___rshift__);
     cls_orig_rshift := None;
     cls_rrshift := Some (RFun int___rrshift__) |}.

(** [class PipeVerb()] of the notebook: it defines [__rrshift__] and no
    [__rshift__]. *)
Definition PipeVerb_class : pyclass :=
  {| cls_bases := []; cls_immutable := false; cls_rshift := None;
     cls_orig_rshift := None; cls_rrshift := Some RPipeVerb |}.

(** The classes fixed by the language and by the notebook's first cell. *)
Definition fixed_class (c : cname) : option pyclass :=
  if decide (c = "int") then Some int_class
  else if decide (c = PipeVerb) then Some PipeVerb_class
  else if bool_decide (c ∈ ["object"; "list"; "str"; "NoneType"; "NotImplementedType"])
       then Some builtin_plain
  else None.

(** All other classes (of the user, of pandas) are described by a class
    table; a class the table does not mention is a plain one. *)
Definition get_class (ct : gmap cname pyclass) (c : cname) : pyclass :=
  match fixed_class c with
  | Some k => k
  | None => default plain_class (ct !! c)
  end.

(** [cls.__mro__] *)
Definition mro (ct : gmap cname pyclass) (c : cname) : list cname :=
  c :: cls_bases (get_class ct c) ++ ["object"].

(** Attribute lookup on a class: the first class along the MRO that has
    the attribute in its own namespace, with the attribute. *)
Fixpoint find_along {A} (ct : gmap cname pyclass) (get : pyclass -> option A)
    (ks : list cname) : option (cname * A) :=
  match ks with
  | [] => None
  | k :: ks' =>
      match get (get_class ct k) with
      | Some a => Some (k, a)
      | None => find_along ct get ks'
      end
  end.

Definition find_attr {A} (ct : gmap cname pyclass) (get : pyclass -> option A)
    (c : cname) : option (cname * A) :=
  find_along ct get (mro ct c).

Definition getattr {A} (ct : gmap cname pyclass) (get : pyclass -> option A)
    (c : cname) : option A :=
  snd <$> find_attr ct get c.

(** [hasattr(cls, '__rshift__')] *)
Definition hasattr_rshift (ct : gmap cname pyclass) (c : cname) : bool :=
  bool_decide (is_Some (getattr ct cls_rshift c)).

(** [getattr(m, 'pipeoperator', False)] for what [cls.__rshift__] yields:
    the closure of [make_pipesource] has the attribute set to [True]. *)
Definition pipeoperator (m : method) : bool :=
  match m with
  | MFun f => fn_pipeoperator f
  | MPipe => true
  end.

(** ** Functions, single dispatch and the function store *)

(** A function called with positional and named arguments. *)
Abbreviation body := (list val -> list (string * val) -> M val) (only parsing).

(** A function object: a plain function, or the wrapper that
    [functools.singledispatch] returns, which owns a registry from classes
    to implementations. *)
Inductive func : Type :=
| Plain (code : list val -> list (string * val) -> M val)
| SingleDispatch (registry : gmap cname (list val -> list (string * val) -> M val)).

(** [singledispatch(code)]: the registry starts with [code] under
    [object]. *)
Definition singledispatch (code : body) : func :=
  SingleDispatch {[ "object" := code ]}.

(** [f.register(cls, impl)]; a plain function has no [register]. *)
Definition register (cls : cname) (impl : body) (f : func) : option func :=
  match f with
  | Plain _ => None
  | SingleDispatch registry => Some (SingleDispatch (<[cls := impl]> registry))
  end.

(** [dispatch(cls)]: the implementation of the first class along the MRO
    of [cls] that the registry knows ([functools._find_impl] for classes
    that are no abstract base classes). *)
Fixpoint first_registered
    (registry : gmap cname (list val -> list (string * val) -> M val))
    (ks : list cname) : option body :=
  match ks with
  | [] => None
  | k :: ks' =>
      match registry !! k with
      | Some impl => Some impl
      | None => first_registered registry ks'
      end
  end.

Definition dispatch (ct : gmap cname pyclass)
    (registry : gmap cname (list val -> list (string * val) -> M val))
    (c : cname) : option body :=
  first_registered registry (mro ct c).

(** The state the notebook's cells build up: the class table and the
    function store. *)
Record world : Type := World {
  classes : gmap cname pyclass;
  funs : gmap fid func }.

(** [f( *pos, **kw)] for a function object of the store.  For a
    single-dispatch function this is the [wrapper] of
    [functools.singledispatch],
    [dispatch(args[0].__class__)( *args, **kw)], which fails without a
    positional argument. *)
Definition call (w : world) (f : fid) (pos : list val) (kw : list (string * val))
    : M val :=
  match funs w !! f with
  | None => raise (OtherError "NameError" f)
  | Some (Plain code) => code pos kw
  | Some (SingleDispatch registry) =>
      match pos with
      | [] => raise TypeError
      | a :: _ =>
          match dispatch (classes w) registry (type_of a) with
          | Some impl => impl pos kw
          | None => raise TypeError
          end
      end
  end.

(** ** The code of the notebook's first cell *)

Definition has_key (k : string) (kw : list (string * val)) : bool :=
  bool_decide (k ∈ kw.*1).

(** [PipeVerb(func, *args, **kwargs)], that is
    [__init__(self, func, *args, **kwargs)]: a named argument called [self]
    or [func] collides with the parameter of that name. *)
Definition PipeVerb___init__ (func : fid) (args : list val) (kwargs : list (string * val))
    : M val :=
  if has_key "self" kwargs || has_key "func" kwargs then raise TypeError
  else ret (VVerb func args kwargs).

(** [PipeVerb.__rrshift__(self, input)]:
    [return self.pipe_func(input, *self.args, **self.kwargs)] *)
Definition PipeVerb___rrshift__ (w : world) (self input : val) : M val :=
  match self with
  | VVerb pipe_func args kwargs => call w pipe_func (input :: args) kwargs
  | _ => raise AttributeError
  end.

(** The callable [decorated] that [pipeverb] returns: its closure holds
    [func]; it has a [register] attribute when [func] has one, and that
    attribute is [func.register]. *)
Record decorated : Type := Decorated {
  dec_func : fid;
  dec_register : option fid }.

Definition has_register (w : world) (f : fid) : bool :=
  match funs w !! f with
  | Some (SingleDispatch _) => true
  | _ => false
  end.

(** [pipeverb(func)]:
<<
    @wraps(func)
    def decorated( *args, **kwargs):
        return PipeVerb(func, *args, **kwargs)
    if hasattr(func, 'register'):
        decorated.register = func.register
    return decorated
>> *)
Definition pipeverb (w : world) (func : fid) : decorated :=
  {| dec_func := func;
     dec_register := if has_register w func then Some func else None |}.

(** [decorated( *args, **kwargs)] *)
Definition call_decorated (d : decorated) (args : list val)
    (kwargs : list (string * val)) : M val :=
  PipeVerb___init__ (dec_func d) args kwargs.

(** [f.register(cls, impl)] on a function of the store: [None] stands for
    the [AttributeError] of a function without [register]. *)
Definition func_register (w : world) (f : fid) (cls : cname) (impl : body)
    : option world :=
  fn ← funs w !! f;
  fn' ← register cls impl fn;
  Some {| classes := classes w; funs := <[f := fn']> (funs w) |}.

(** [decorated.register(cls, impl)] *)
Definition decorated_register (w : world) (d : decorated) (cls : cname)
    (impl : body) : option world :=
  f ← dec_register d;
  func_register w f cls impl.

(** The class as [make_pipesource] leaves it when it patches:
    [cls.__orig_rshift__ = cls.__rshift__], then [cls.__rshift__] is the new
    closure, whose [pipeoperator] attribute is set. *)
Definition patched (k : pyclass) (f : pyfunction) : pyclass :=
  {| cls_bases := cls_bases k;
     cls_immutable := cls_immutable k;
     cls_rshift := Some MPipe;
     cls_orig_rshift := Some f;
     cls_rrshift := cls_rrshift k |}.

(** [make_pipesource(cls)]:
<<
    if hasattr(cls, '__rshift__') and \
       (not getattr(cls.__rshift__, 'pipeoperator', False)):
        def __rshift__(self, other): ...
        cls.__orig_rshift__ = cls.__rshift__
        cls.__rshift__ = __rshift__
        setattr(cls.__rshift__, "pipeoperator", True)
>>
    The first assignment to the class is the one that fails on an immutable
    type, before anything was changed.  What is saved under
    [__orig_rshift__] has no flag and so is not the closure. *)
Definition make_pipesource (ct : gmap cname pyclass) (cls : cname)
    : res unit * gmap cname pyclass :=
  match getattr ct cls_rshift cls with
  | None => (Ret (), ct)
  | Some m =>
      if pipeoperator m then (Ret (), ct)
      else
        match m with
        | MPipe => (Ret (), ct)
        | MFun f =>
            if cls_immutable (get_class ct cls) then (Raise TypeError, ct)
            else (Ret (), <[cls := patched (get_class ct cls) f]> ct)
        end
  end.

(** [singledispatch_pipeverb(func)]: the function [name] of the store
    becomes [singledispatch(code)], and the verb is [pipeverb] of it. *)
Definition singledispatch_pipeverb (w : world) (name : fid) (code : body)
    : decorated * world :=
  let w' := {| classes := classes w;
               funs := <[name := singledispatch code]> (funs w) |} in
  (pipeverb w' name, w').

(** ** The operator [>>] *)

(** Calling what [type(self).__rshift__] yields.  The closure of
    [make_pipesource] is
<<
    def __rshift__(self, other):
        if isinstance(other, PipeVerb):
            return other.__rrshift__(self)
        else:
            return self.__orig_rshift__(other)
>>
    where [self.__orig_rshift__] is looked up on the class of [self] when
    the closure runs. *)
Definition call_rshift (w : world) (m : method) (self other : val) : M val :=
  match m with
  | MFun f => fn_code f self other
  | MPipe =>
      if is_PipeVerb other then PipeVerb___rrshift__ w other self
      else
        match getattr (classes w) cls_orig_rshift (type_of self) with
        | Some g => fn_code g self other
        | None => raise AttributeError
        end
  end.

(** Calling what [type(self).__rrshift__] yields. *)
Definition call_rrshift (w : world) (m : rmethod) (self other : val) : M val :=
  match m with
  | RFun f => fn_code f self other
  | RPipeVerb => PipeVerb___rrshift__ w self other
  end.

(** The right operand's class is a proper subclass of the left operand's
    class and provides a different reflected method: then the reflected
    method is tried first.  Functions defined in different classes are
    different objects. *)
Definition reflected_first (ct : gmap cname pyclass) (ta tb : cname) : bool :=
  bool_decide (ta ≠ tb) && bool_decide (ta ∈ mro ct tb) &&
  match find_attr ct cls_rrshift tb with
  | Some (kb, _) =>
      match find_attr ct cls_rrshift ta with
      | Some (ka, _) => bool_decide (ka ≠ kb)
      | None => true
      end
  | None => false
  end.

(** A result other than [NotImplemented] is the operator's result. *)
Definition or_else (c : M val) (k : M val) : M val :=
  let* r := c in if is_NotImplemented r then k else ret r.

(** [a >> b] *)
Definition rshift (w : world) (a b : val) : M val :=
  let ct := classes w in
  let ta := type_of a in
  let tb := type_of b in
  let unsupported : M val := raise TypeError in
  let left (k : M val) : M val :=
    match getattr ct cls_rshift ta with
    | Some m => or_else (call_rshift w m a b) k
    | None => k
    end in
  let right : option (M val) :=
    if decide (ta = tb) then None
    else (fun m => call_rrshift w m b a) <$> getattr ct cls_rrshift tb in
  match right with
  | Some r =>
      if reflected_first ct ta tb then or_else r (left unsupported)
      else left (or_else r unsupported)
  | None => left unsupported
  end.

(** The left operand [a] leaves [a >> b] to the reflected method of [b]:
    its class has no [__rshift__], or the one of [make_pipesource], or one
    that answers [NotImplemented] for [b] and does nothing else. *)
Definition hands_over (ct : gmap cname pyclass) (a b : val) : Prop :=
  match getattr ct cls_rshift (type_of a) with
  | None => True
  | Some MPipe => True
  | Some (MFun f) => forall h, fn_code f a b h = (Ret VNotImplemented, h)
  end.

(** [value >> verb( *args, **kwargs)]: the operands are evaluated from left
    to right, then the operator is applied. *)
Definition pipe (w : world) (value : M val) (verb : decorated)
    (args : list val) (kwargs : list (string * val)) : M val :=
  let* v := value in
  let* pv := call_decorated verb args kwargs in
  rshift w v pv.

(** ** Binding call arguments to parameters *)

(** A positional-or-keyword parameter with its default, if any. *)
Record param : Type := Param {
  p_name : string;
  p_default : option val }.

Definition lookup_kw (k : string) (kw : list (string * val)) : option val :=
  (fun r => r.2.2) <$> list_find (fun p => p.1 = k) kw.

(** Positional arguments fill the parameters from the left; a parameter
    filled positionally must not be named again; the others take the named
    argument, else the default, else the call fails. *)
Fixpoint bind_pos (params : list param) (pos : list val)
    (kw : list (string * val)) : option (list val) :=
  match params with
  | [] => match pos with [] => Some [] | _ :: _ => None end
  | p :: ps =>
      match pos with
      | v :: pos' =>
          if has_key (p_name p) kw then None
          else (v ::.) <$> bind_pos ps pos' kw
      | [] =>
          match lookup_kw (p_name p) kw with
          | Some v => (v ::.) <$> bind_pos ps [] kw
          | None =>
              match p_default p with
              | Some d => (d ::.) <$> bind_pos ps [] kw
              | None => None
              end
          end
      end
  end.

(** The values of the parameters, in order, or [None] for the
    [TypeError] of a call that does not fit the signature (too many
    positional arguments, an unexpected or repeated name, a missing
    argument). *)
Definition bind_args (params : list param) (pos : list val)
    (kw : list (string * val)) : option (list val) :=
  if forallb (fun k => bool_decide (k ∈ p_name <$> params)) kw.*1
  then bind_pos params pos kw
  else None.

(** ** Lists *)

Definition list_literal (items : list val) : M val :=
  let* l := alloc (HList items) in ret (VRef "list" l).

(** [a + b] where [b] is a list: concatenation into a new list when [a] is
    a list too (an instance of [list] or of a subclass that keeps
    [list.__add__]), [TypeError] when [a] is an [int], a [str], [None] or a
    [PipeVerb].  Classes with an [__add__] of their own are not modelled. *)
Definition add_list (a b : val) : M val :=
  match a, b with
  | VRef _ la, VRef _ lb =>
      let* oa := load la in
      let* ob := load lb in
      match oa, ob with
      | HList xs, HList ys => list_literal (xs ++ ys)
      | _, _ => raise TypeError
      end
  | _, _ => raise TypeError
  end.

(** ** The verbs of the notebook *)

Definition DataFrame : cname := "pandas.core.frame.DataFrame".
Definition GroupBy : cname := "pandas.core.groupby.GroupBy".
Definition DataFrameGroupBy : cname := "pandas.core.groupby.DataFrameGroupBy".

(** ["<name> is not implemented for data of type %s" % type(input)] *)
Definition not_implemented_message (name : string) (input : val) : string :=
  name +:+ " is not implemented for data of type " +:+ type_repr (type_of input).

Section Notebook.

(** pandas is not part of the repository: the methods of its objects that
    the notebook calls are parameters. *)
Variable DataFrame_copy : val -> M val.            (* input.copy() *)
Variable DataFrame___setitem__ : val -> val -> val -> M val. (* copy[k] = x *)
Variable DataFrame_groupby : val -> val -> M val.  (* input.groupby(columns) *)
Variable pandas_mean : val -> M val.               (* input.mean() *)
(** Whether [pandas.DataFrame] has a [>>] of its own depends on the
    pandas at hand. *)
Variable DataFrame___rshift__ : option (val -> val -> M val).

Definition with_args (params : list param) (pos : list val)
    (kw : list (string * val)) (k : list val -> M val) : M val :=
  match bind_args params pos kw with
  | Some vs => k vs
  | None => raise TypeError
  end.

(** [def append_col(input, x = 1)] *)
Definition append_col_params : list param :=
  [Param "input" None; Param "x" (Some (VInt 1))].

Definition append_col : body := fun pos kw =>
  with_args append_col_params pos kw (fun vs =>
    match vs with
    | [input; x] =>
        raise (NotImplementedError (not_implemented_message "append_col" input))
    | _ => raise TypeError
    end).

(** [def append_col_df(input, x = 1)], registered for [pd.DataFrame] *)
Definition append_col_df : body := fun pos kw =>
  with_args append_col_params pos kw (fun vs =>
    match vs with
    | [input; x] =>
        let* copy := DataFrame_copy input in
        let* _ := DataFrame___setitem__ copy (VStr "X") x in
        ret copy
    | _ => raise TypeError
    end).

(** The second [def append_col_df(input, x = 1)], registered for [list] *)
Definition append_col_df_list : body := fun pos kw =>
  with_args append_col_params pos kw (fun vs =>
    match vs with
    | [input; x] =>
        let* tmp := list_literal [x] in
        add_list input tmp
    | _ => raise TypeError
    end).

(** [def groupby(input, columns)] *)
Definition groupby_params : list param :=
  [Param "input" None; Param "columns" None].

Definition groupby : body := fun pos kw =>
  with_args groupby_params pos kw (fun vs =>
    match vs with
    | [input; columns] =>
        raise (NotImplementedError (not_implemented_message "groupby" input))
    | _ => raise TypeError
    end).

Definition groupby_DataFrame : body := fun pos kw =>
  with_args groupby_params pos kw (fun vs =>
    match vs with
    | [input; columns] => DataFrame_groupby input columns
    | _ => raise TypeError
    end).

(** [def summarize_mean(input)] *)
Definition summarize_mean_params : list param := [Param "input" None].

Definition summarize_mean : body := fun pos kw =>
  with_args summarize_mean_params pos kw (fun vs =>
    match vs with
    | [input] =>
        raise (NotImplementedError (not_implemented_message "summarize_mean" input))
    | _ => raise TypeError
    end).

Definition summarize_mean_DataFrame : body := fun pos kw =>
  with_args summarize_mean_params pos kw (fun vs =>
    match vs with
    | [input] => pandas_mean input
    | _ => raise TypeError
    end).

Definition summarize_mean_GroupBy : body := fun pos kw =>
  with_args summarize_mean_params pos kw (fun vs =>
    match vs with
    | [input] => pandas_mean input
    | _ => raise TypeError
    end).

(** [def my_verb_(input, x=1, y=2)]: its body calls the constant
    [NotImplemented], which is not callable. *)
Definition my_verb_params : list param :=
  [Param "input" None; Param "x" (Some (VInt 1)); Param "y" (Some (VInt 2))].

Definition my_verb_ : body := fun pos kw =>
  with_args my_verb_params pos kw (fun _ => raise TypeError).

Definition my_verb_df : body := fun pos kw =>
  with_args my_verb_params pos kw (fun vs =>
    match vs with
    | [input; x; y] =>
        let* tmp := list_literal [x; y] in
        add_list input tmp
    | _ => raise TypeError
    end).

(** The pandas classes the notebook meets.  Of the base classes of
    [DataFrameGroupBy] only [GroupBy] is named: the other pandas classes
    along its MRO define no shift operator and nothing is registered for
    them. *)
Definition pandas_classes : gmap cname pyclass :=
  {[ DataFrame :=
       {| cls_bases := []; cls_immutable := false;
          cls_rshift :=
            (fun f => MFun (PyFunction false f)) <$> DataFrame___rshift__;
          cls_orig_rshift := None; cls_rrshift := None |};
     GroupBy := plain_class;
     DataFrameGroupBy :=
       {| cls_bases := [GroupBy]; cls_immutable := false;
          cls_rshift := None; cls_orig_rshift := None;
          cls_rrshift := None |} ]}.

Definition initial : world := {| classes := pandas_classes; funs := ∅ |}.

(** [make_pipesource(cls)] as a statement of a cell: [None] when it
    raises. *)
Definition do_make_pipesource (w : world) (cls : cname) : option world :=
  match make_pipesource (classes w) cls with
  | (Ret _, ct) => Some {| classes := ct; funs := funs w |}
  | (Raise _, _) => None
  end.

(** The cells of the notebook that define verbs, in order; the result is
    the world they leave, with the verbs bound to the notebook's names
    [append_col], [groupby], [summarize_mean] and [my_verb]. *)
Definition cells : option (decorated * decorated * decorated * decorated * world) :=
  let '(v_append_col, w) := singledispatch_pipeverb initial "append_col" append_col in
  w ← decorated_register w v_append_col DataFrame append_col_df;
  w ← do_make_pipesource w DataFrame;
  w ← decorated_register w v_append_col "list" append_col_df_list;
  let '(v_groupby, w) := singledispatch_pipeverb w "groupby" groupby in
  w ← decorated_register w v_groupby DataFrame groupby_DataFrame;
  let '(v_summarize_mean, w) :=
    singledispatch_pipeverb w "summarize_mean" summarize_mean in
  w ← decorated_register w v_summarize_mean DataFrame summarize_mean_DataFrame;
  w ← decorated_register w v_summarize_mean GroupBy summarize_mean_GroupBy;
  let w := {| classes := classes w;
              funs := <["my_verb_" := singledispatch my_verb_]> (funs w) |} in
  let v_my_verb := pipeverb w "my_verb_" in
  w ← func_register w "my_verb_" "list" my_verb_df;
  Some (v_append_col, v_groupby, v_summarize_mean, v_my_verb, w).

(** The world in which the notebook's pipelines are evaluated. *)
Definition notebook : world :=
  match cells with
  | Some (_, _, _, _, w) => w
  | None => initial
  end.

End Notebook.

(** The verbs the notebook defines with [singledispatch_pipeverb], with
    the parameters of their generic functions. *)
Definition notebook_verbs : list (fid * list param) :=
  [("append_col", append_col_params);
   ("groupby", groupby_params);
   ("summarize_mean", summarize_mean_params)].

(** The registry of a single-dispatch function of the store. *)
Definition registry_of (w : world) (f : fid)
    : gmap cname (list val -> list (string * val) -> M val) :=
  match funs w !! f with
  | Some (SingleDispatch registry) => registry
  | _ => ∅
  end.

(** No class along the MRO of [c], apart from [object], has an
    implementation of [f] registered. *)
Definition unregistered (w : world) (f : fid) (c : cname) : Prop :=
  Forall (fun k => k = "object" \/ registry_of w f !! k = None)
    (mro (classes w) c).

(** The items of a list object. *)
Definition list_items (h : list hobj) (v : val) : option (list val) :=
  match v with
  | VRef _ l =>
      match h !! l with
      | Some (HList items) => Some items
      | _ => None
      end
  | _ => None
  end.

(** [[1, 2] >> append_col( **kwargs)] evaluates to a list with the items
    1, 2 and [x], and leaves the list it was given, and every other object
    that existed, as it was. *)
Definition appends (w : world) (kw : list (string * val)) (x : Z)
    (h : list hobj) : Prop :=
  exists input out h1 h2,
    list_literal [VInt 1; VInt 2] h = (Ret input, h1) /\
    pipe w (list_literal [VInt 1; VInt 2]) (pipeverb w "append_col") [] kw h
    = (Ret out, h2) /\
    list_items h2 out = Some [VInt 1; VInt 2; VInt x] /\
    list_items h2 input = Some [VInt 1; VInt 2] /\
    h1 `prefix_of` h2.

(** ** Concrete instances *)

(** A stand-in for pandas, to run the notebook's world on concrete inputs:
    a frame's fields are its columns as name and value in turn; [groupby]
    and [mean] build objects that record what they were made from.  This
    pandas has no [>>] on frames. *)
Module Pandas.

Definition copy (df : val) : M val :=
  match df with
  | VRef c l => let* o := load l in let* l' := alloc o in ret (VRef c l')
  | _ => raise AttributeError
  end.

Definition setitem (df key x : val) : M val :=
  match df with
  | VRef c l =>
      let* o := load l in
      match o with
      | HObj fields => store l (HObj (fields ++ [key; x]))
      | HList _ => raise TypeError
      end
  | _ => raise TypeError
  end.

Definition groupby (df columns : val) : M val :=
  let* l := alloc (HObj [df; columns]) in ret (VRef DataFrameGroupBy l).

Definition mean (x : val) : M val :=
  let* l := alloc (HObj [VStr "mean"; x]) in ret (VRef DataFrame l).

Definition session : world := notebook copy setitem groupby mean None.

(** [pd.DataFrame({"a" : [1, 2, 3, 4], "b": [1, 1, 2, 2]})] at location 2 *)
Definition df_heap : list hobj :=
  [HList [VInt 1; VInt 2; VInt 3; VInt 4];
   HList [VInt 1; VInt 1; VInt 2; VInt 2];
   HObj [VStr "a"; VRef "list" 0%nat; VStr "b"; VRef "list" 1%nat]].

Definition df : val := VRef DataFrame 2%nat.

(** [df.groupby("b")] at location 3 *)
Definition grouped_heap : list hobj := df_heap ++ [HObj [df; VStr "b"]].
Definition grouped : val := VRef DataFrameGroupBy 3%nat.

End Pandas.

(** A class with a [>>] of its own, and a verb with an implementation
    for it:
<<
    class Frame:
        def __rshift__(self, other):
            if isinstance(other, int): return self
            raise TypeError(...)

    @singledispatch_pipeverb
    def head(input): raise NotImplementedError(...)

    @head.register(Frame)
    def head_Frame(input): return input
>>
    a plain function [same(input)] that returns its input, and one,
    [decline(input)], that returns [NotImplemented]; and a second verb
    whose specializations are these two:
<<
    @singledispatch_pipeverb
    def tail(input): raise NotImplementedError(...)
    tail.register(list)(decline)
    tail.register(PipeVerb)(same)
>> *)
Module Frames.

Definition Frame : cname := "__main__.Frame".

Definition Frame___rshift__ : pyfunction :=
  {| fn_pipeoperator := false;
     fn_code := fun self other =>
       match other with
       | VInt _ => ret self
       | _ => raise TypeError
       end |}.

Definition Frame_class : pyclass :=
  {| cls_bases := []; cls_immutable := false;
     cls_rshift := Some (MFun Frame___rshift__);
     cls_orig_rshift := None; cls_rrshift := None |}.

Definition head : body := fun pos kw =>
  match pos, kw with
  | [input], [] =>
      raise (NotImplementedError (not_implemented_message "head" input))
  | _, _ => raise TypeError
  end.

Definition head_Frame : body := fun pos kw =>
  match pos, kw with
  | [input], [] => ret input
  | _, _ => raise TypeError
  end.

Definition same : body := fun pos kw =>
  match pos, kw with
  | [input], [] => ret input
  | _, _ => raise TypeError
  end.

(** [def decline(input): return NotImplemented] *)
Definition decline : body := fun pos kw =>
  match pos, kw with
  | [input], [] => ret VNotImplemented
  | _, _ => raise TypeError
  end.

Definition head_registry
    : gmap cname (list val -> list (string * val) -> M val) :=
  <[Frame := head_Frame]> {[ "object" := head ]}.

Definition tail : body := fun pos kw =>
  match pos, kw with
  | [input], [] =>
      raise (NotImplementedError (not_implemented_message "tail" input))
  | _, _ => raise TypeError
  end.

Definition tail_registry
    : gmap cname (list val -> list (string * val) -> M val) :=
  <[PipeVerb := same]> (<["list" := decline]> {[ "object" := tail ]}).

(** The world after these definitions, before [make_pipesource(Frame)]. *)
Definition before : world :=
  {| classes := {[ Frame := Frame_class ]};
     funs := {[ "head" := SingleDispatch head_registry;
                "tail" := SingleDispatch tail_registry;
                "same" := Plain same;
                "decline" := Plain decline ]} |}.

(** The world after [make_pipesource(Frame)]. *)
Definition after : world :=
  {| classes := (make_pipesource (classes before) Frame).2;
     funs := funs before |}.

Definition frame : val := VRef Frame 0%nat.
Definition frame_heap : list hobj := [HObj []].

End Frames.

(** The three ways [make_pipesource] ends. *)
Inductive make_pipesource_spec (ct : gmap cname pyclass) (cls : cname)
    : res unit * gmap cname pyclass -> Prop :=
| mps_untouched :
    match getattr ct cls_rshift cls with
    | Some m => pipeoperator m = true
    | None => True
    end ->
    make_pipesource_spec ct cls (Ret (), ct)
| mps_immutable f :
    getattr ct cls_rshift cls = Some (MFun f) ->
    fn_pipeoperator f = false ->
    cls_immutable (get_class ct cls) = true ->
    make_pipesource_spec ct cls (Raise TypeError, ct)
| mps_patched f :
    getattr ct cls_rshift cls = Some (MFun f) ->
    fn_pipeoperator f = false ->
    fixed_class cls = None ->
    make_pipesource_spec ct cls
      (Ret (), <[cls := patched (get_class ct cls) f]> ct).


(** ** Pipelines of several stages *)

(** A stage [verb( *args, **kwargs)] of a pipeline. *)
Record stage : Type := Stage {
  st_verb : fid;
  st_args : list val;
  st_kwargs : list (string * val) }.

(** [value >> verb1(...) >> verb2(...) >> ...]: the operator associates
    to the left, and each verb is called when its turn comes. *)
Fixpoint pipeline (w : world) (value : M val) (stages : list stage) : M val :=
  match stages with
  | [] => value
  | s :: ss =>
      pipeline w
        (pipe w value (pipeverb w (st_verb s)) (st_args s) (st_kwargs s)) ss
  end.

(** [fn(... f2(f1(v, ...), ...) ...)]: the nested call of the functions
    that the verbs wrap, innermost first. *)
Fixpoint nested (w : world) (v : val) (stages : list stage) : M val :=
  match stages with
  | [] => ret v
  | s :: ss =>
      let* r := call w (st_verb s) (v :: st_args s) (st_kwargs s) in
      nested w r ss
  end.

(** The pipeline gets through: at every stage that is reached, no
    argument is named [self] or [func], the value on the left is no wrapper
    and hands the wrapper over, and the wrapped function, if it returns,
    returns something other than [NotImplemented]. *)
Fixpoint runs_through (w : world) (v : val) (stages : list stage)
    (h : list hobj) : Prop :=
  match stages with
  | [] => True
  | s :: ss =>
      has_key "self" (st_kwargs s) = false /\
      has_key "func" (st_kwargs s) = false /\
      type_of v <> PipeVerb /\
      hands_over (classes w) v (VVerb (st_verb s) (st_args s) (st_kwargs s)) /\
      match call w (st_verb s) (v :: st_args s) (st_kwargs s) h with
      | (Ret r, h') => r <> VNotImplemented /\ runs_through w r ss h'
      | (Raise _, _) => True
      end
  end.

(** A function that leaves a mark in the heap and returns
    [NotImplemented], in the world in which [Frame] is pipe-enabled:
<<
    def marking(input):
        marks.append([])
        return NotImplemented
>> *)
Definition marking : list val -> list (string * val) -> M val := fun pos kw =>
  let* _ := alloc (HObj []) in ret VNotImplemented.

Definition marking_world : world :=
  {| classes := classes Frames.after;
     funs := <["marking" := Plain marking]> (funs Frames.after) |}.

(** * The helpers of [_posts/2015-09-18-working_with_dicts.md]

    [get_from_dict] and [find_in_dict] work on the nested data that a JSON
    document decodes to: [None], booleans, numbers, strings, lists, and
    dictionaries with strings as keys.  A dictionary is the list of its
    entries in the order of iteration.  Neither function looks into a
    number, so integers stand for all numbers.  A [str] is the sequence of
    its characters. *)

Inductive json : Type :=
| JNull
| JBool (b : bool)
| JNum (z : Z)
| JStr (s : string)
| JList (items : list json)
| JDict (entries : list (string * json)).

(** [Exception(msg)] *)
Definition Exception (msg : string) : exn := OtherError "Exception" msg.
Definition IndexError : exn := OtherError "IndexError" "pop from empty list".

(** ** Strings *)

(** [s.split(".")] for a separator of one character. *)
Fixpoint split (sep : ascii) (s : string) : list string :=
  match s with
  | "" => [""]
  | String c s' =>
      if decide (c = sep) then "" :: split sep s'
      else
        match split sep s' with
        | x :: xs => String c x :: xs
        | [] => [String c ""]
        end
  end.

(** [c in s] for a character. *)
Fixpoint has_char (c : ascii) (s : string) : bool :=
  match s with
  | "" => false
  | String c' s' => bool_decide (c' = c) || has_char c s'
  end.

Fixpoint starts_with (text s : string) : bool :=
  match text, s with
  | "", _ => true
  | String a text', String b s' => bool_decide (a = b) && starts_with text' s'
  | String _ _, "" => false
  end.

(** [text in s] for strings. *)
Fixpoint contains (text s : string) : bool :=
  starts_with text s ||
  match s with
  | "" => false
  | String _ s' => contains text s'
  end.

(** ** Subscripts *)

(** [l[i]] for a sequence: a negative index counts from the end; [None]
    stands for [IndexError]. *)
Definition index {A} (l : list A) (i : Z) : option A :=
  if 0 <=? i then l !! Z.to_nat i
  else if 0 <=? Z.of_nat (length l) + i then l !! Z.to_nat (Z.of_nat (length l) + i)
  else None.

(** [data[i]] for an integer [i]; [None] stands for the exception: the
    [IndexError] of a list or a string, the [KeyError] of a dictionary,
    whose keys are strings, the [TypeError] of the other values. *)
Definition subscript (data : json) (i : Z) : option json :=
  match data with
  | JList items => index items i
  | JStr s => (fun c => JStr (String c "")) <$> index (String.list_ascii_of_string s) i
  | _ => None
  end.

(** [d[k]] for a dictionary given by its entries. *)
Fixpoint dict_get (k : string) (entries : list (string * json)) : option json :=
  match entries with
  | [] => None
  | (k', v) :: entries' => if decide (k' = k) then Some v else dict_get k entries'
  end.

(** [data.get(n, "None")]: only a dictionary has [get]. *)
Definition get (data : json) (n : string) : res json :=
  match data with
  | JDict entries => Ret (default (JStr "None") (dict_get n entries))
  | _ => Raise AttributeError
  end.

Section DictHelpers.

(** [int(n)] for a string: [None] stands for its [ValueError].  Which
    strings Python reads as integers is left open; the theorems say what
    they need of it. *)
Variable int : string -> option Z.

(** ** [get_from_dict] *)

(** One turn of the loop, up to the test for [None]:
<<
    try:
        i = int(n)
        data = data[i]
    except:
        data = data.get(n, "None")
>> *)
Definition get_from_dict_step (data : json) (n : string) : res json :=
  match int n ≫= subscript data with
  | Some v => Ret v
  | None => get data n
  end.

(** ["Key not found: %s (%s)" % (n, name)] *)
Definition key_not_found (n name : string) : exn :=
  Exception ("Key not found: " +:+ n +:+ " (" +:+ name +:+ ")").

(** [for n in names: ...; return data] *)
Fixpoint get_from_dict_loop (name : string) (data : json) (names : list string)
    : res json :=
  match names with
  | [] => Ret data
  | n :: names' =>
      match get_from_dict_step data n with
      | Raise e => Raise e
      | Ret JNull => Raise (key_not_found n name)
      | Ret data' => get_from_dict_loop name data' names'
      end
  end.

Definition get_from_dict (data : json) (name : string) : res json :=
  get_from_dict_loop name data (split "." name).

End DictHelpers.

(** ** [find_in_dict] *)

(** The body of both loops of [_find]:
<<
    stack.append(seg)
    if _find(value, stack):
        return True
    else:
        stack.pop()
>>
    followed by the rest of the loop.  The stack is passed along, and
    returned with the result. *)
Definition visit (rec : json -> list string -> res (bool * list string))
    (seg : string) (value : json) (stack : list string)
    (rest : list string -> res (bool * list string))
    : res (bool * list string) :=
  match rec value (stack ++ [seg]) with
  | Raise e => Raise e
  | Ret (true, stack') => Ret (true, stack')
  | Ret (false, stack') =>
      match stack' with
      | [] => Raise IndexError
      | _ :: _ => rest (removelast stack')
      end
  end.

(** [for i, value in enumerate(data): ...], from index [i] on. *)
Fixpoint find_items (rec : json -> list string -> res (bool * list string))
    (items : list json) (i : nat) (stack : list string)
    : res (bool * list string) :=
  match items with
  | [] => Ret (false, stack)
  | value :: items' =>
      visit rec (pretty i) value stack (find_items rec items' (S i))
  end.

(** [for key, value in data.items(): ...] *)
Fixpoint find_entries (rec : json -> list string -> res (bool * list string))
    (entries : list (string * json)) (stack : list string)
    : res (bool * list string) :=
  match entries with
  | [] => Ret (false, stack)
  | (key, value) :: entries' =>
      visit rec key value stack (find_entries rec entries')
  end.

(** [_find(data, stack)] for a [text] that is a string.  A value that is
    neither a list nor a dictionary is compared with [text]: a string is
    equal to it or not, and [text in data] is defined; anything else is
    not equal to it, and [text in data] raises [TypeError]. *)
Fixpoint _find (text : string) (data : json) (stack : list string)
    : res (bool * list string) :=
  match data with
  | JList items => find_items (_find text) items 0 stack
  | JDict entries => find_entries (_find text) entries stack
  | JStr s => Ret (bool_decide (s = text) || contains text s, stack)
  | _ => Raise TypeError
  end.

(** ["Not found in data: %s" % (text,)] *)
Definition not_found (text : string) : exn :=
  Exception ("Not found in data: " +:+ text).

Definition find_in_dict (data : json) (text : string) : res string :=
  match _find text data [] with
  | Raise e => Raise e
  | Ret (true, stack) => Ret (String.concat "." stack)
  | Ret (false, _) => Raise (not_found text)
  end.

(** ** Notions to state properties with *)

(** The values that are neither lists nor dictionaries, in the order in
    which [_find] comes to them. *)
Fixpoint leaves (data : json) : list json :=
  match data with
  | JList items => flat_map leaves items
  | JDict entries => flat_map (fun kv => leaves kv.2) entries
  | _ => [data]
  end.

Inductive outcome : Type := Found | Unsearchable | Missing.

(** What a search through the leaves one by one comes to: a string with
    [text] in it, or before that a leaf that is no string, or the end. *)
Fixpoint search (text : string) (ls : list json) : outcome :=
  match ls with
  | [] => Missing
  | JStr s :: ls' => if contains text s then Found else search text ls'
  | _ :: _ => Unsearchable
  end.

(** [path] leads from [data] to [r]: an index into a list, written as
    [str] writes it, or a key of a dictionary, one after the other. *)
Inductive leads_to : json -> list string -> json -> Prop :=
| leads_here d : leads_to d [] d
| leads_item items i v path r :
    items !! i = Some v ->
    leads_to v path r ->
    leads_to (JList items) (pretty i :: path) r
| leads_entry entries k v path r :
    dict_get k entries = Some v ->
    leads_to v path r ->
    leads_to (JDict entries) (k :: path) r.

(** Every dictionary has each key once, as a [dict] has, and no key has a
    dot in it. *)
Fixpoint proper (data : json) : bool :=
  match data with
  | JList items => forallb proper items
  | JDict entries =>
      bool_decide (NoDup entries.*1) &&
      forallb (fun kv => negb (has_char "." kv.1) && proper kv.2) entries
  | _ => true
  end.

(** What [_find] does, read off the leaves: it stops with [True] at the
    first string that has [text] in it, and the stack then is the old one
    with a path behind it; it raises [TypeError] at a leaf that is no
    string; it returns [False] with the old stack otherwise. *)
Definition find_result (text : string) (ls : list json) (stack : list string)
    (r : res (bool * list string)) : Prop :=
  match search text ls with
  | Found => exists seg path, r = Ret (true, stack ++ seg :: path)
  | Unsearchable => r = Raise TypeError
  | Missing => r = Ret (false, stack)
  end.

Definition find_result_top (text : string) (ls : list json) (stack : list string)
    (r : res (bool * list string)) : Prop :=
  match search text ls with
  | Found => exists path, r = Ret (true, stack ++ path)
  | Unsearchable => r = Raise TypeError
  | Missing => r = Ret (false, stack)
  end.

(** Where the search ended with [True]: the stack holds a path to a string
    with [text] in it. *)
Definition found_at (text : string) (data : json) (stack st : list string)
    : Prop :=
  exists path s,
    st = stack ++ path /\
    leads_to data path (JStr s) /\
    contains text s = true /\
    Forall (fun seg => has_char "." seg = false) path.

(** ** An [int] to compute with *)

Definition digit (c : ascii) : option N :=
  let n := N_of_ascii c in
  if (48 <=? n)%N && (n <=? 57)%N then Some (n - 48)%N else None.

Fixpoint digits (s : string) (acc : N) : option N :=
  match s with
  | "" => Some acc
  | String c s' => d ← digit c; digits s' (10 * acc + d)%N
  end.

(** The integers written as decimal numerals, with a minus sign or
    without.  Python's [int] reads these as this function does, and reads
    more strings than these (with blanks around, with a plus sign, with
    underscores between digits). *)
Definition int_decimal (s : string) : option Z :=
  match s with
  | "" => None
  | String c s' =>
      if decide (c = "-"%char)
      then match s' with
           | "" => None
           | _ => (fun n => - Z.of_N n) <$> digits s' 0
           end
      else Z.of_N <$> digits s 0
  end.

(** The example of the post. *)
Definition post_data : json :=
  JDict [("result",
          JList [JDict [("name", JStr "Jan Schulz")];
                 JDict [("name", JStr "Another name");
                        ("bday", JStr "1.1.2000")]])].

(** * Properties *)

(** ** The monad *)

Lemma bind_ret_l {A B} (a : A) (k : A -> M B) : bind (ret a) k = k a.
Proof. reflexivity. Qed.

Lemma bind_result {A B} (c : M A) (k : A -> M B) h a h' :
  c h = (Ret a, h') -> bind c k h = k a h'.
Proof. intros Hc. unfold bind. now rewrite Hc. Qed.

Lemma bind_failure {A B} (c : M A) (k : A -> M B) h e h' :
  c h = (Raise e, h') -> bind c k h = (Raise e, h').
Proof. intros Hc. unfold bind. now rewrite Hc. Qed.

(** A computation that ends with anything but [NotImplemented] decides the
    operator. *)
Lemma or_else_result (c k : M val) h r h' :
  c h = (r, h') -> r <> Ret VNotImplemented -> or_else c k h = (r, h').
Proof.
  intros Hc Hr. unfold or_else, bind. rewrite Hc.
  destruct r as [v|e]; [|reflexivity].
  destruct v; try reflexivity. congruence.
Qed.

(** A method that declines hands over to the alternative. *)
Lemma or_else_declined (c k : M val) h :
  c h = (Ret VNotImplemented, h) -> or_else c k h = k h.
Proof. intros Hc. unfold or_else, bind. now rewrite Hc. Qed.

(** ** Attribute lookup *)

Lemma find_along_ext {A} ct ct' (get : pyclass -> option A) ks :
  (forall k, get (get_class ct' k) = get (get_class ct k)) ->
  find_along ct' get ks = find_along ct get ks.
Proof.
  intros Hget. induction ks as [|k ks IH]; simpl; [reflexivity|].
  rewrite Hget, IH. reflexivity.
Qed.

Lemma getattr_own {A} ct (get : pyclass -> option A) c a :
  get (get_class ct c) = Some a -> getattr ct get c = Some a.
Proof. intros Hc. unfold getattr, find_attr, mro. simpl. now rewrite Hc. Qed.

Lemma mro_PipeVerb ct : mro ct PipeVerb = [PipeVerb; "object"].
Proof. reflexivity. Qed.

Lemma getattr_rrshift_PipeVerb ct : getattr ct cls_rrshift PipeVerb = Some RPipeVerb.
Proof. reflexivity. Qed.

Lemma getattr_rshift_object ct : getattr ct cls_rshift "object" = None.
Proof. reflexivity. Qed.

Lemma getattr_rshift_PipeVerb ct : getattr ct cls_rshift PipeVerb = None.
Proof. reflexivity. Qed.

(** A class that [make_pipesource] can write to is none of the fixed
    ones. *)
Lemma writable_not_fixed ct cls m :
  getattr ct cls_rshift cls = Some m ->
  cls_immutable (get_class ct cls) = false ->
  fixed_class cls = None.
Proof.
  intros Hm Him. unfold get_class in Him.
  destruct (fixed_class cls) as [k|] eqn:Hfix; [|reflexivity].
  exfalso. unfold fixed_class in Hfix.
  repeat case_decide; try case_bool_decide; simplify_eq; try discriminate.
Qed.

Lemma get_class_insert ct cls k c :
  fixed_class cls = None ->
  get_class (<[cls := k]> ct) c = if decide (c = cls) then k else get_class ct c.
Proof.
  intros Hfix. unfold get_class. case_decide as Hc.
  - subst c. rewrite Hfix, lookup_insert_eq. reflexivity.
  - rewrite lookup_insert_ne by congruence. reflexivity.
Qed.

(** ** [make_pipesource] *)

Lemma make_pipesource_cases ct cls :
  make_pipesource_spec ct cls (make_pipesource ct cls).
Proof.
  unfold make_pipesource.
  destruct (getattr ct cls_rshift cls) as [[f|]|] eqn:Hm; simpl.
  - destruct (fn_pipeoperator f) eqn:Hflag.
    + constructor. now rewrite Hm.
    + destruct (cls_immutable (get_class ct cls)) eqn:Him.
      * now apply mps_immutable with f.
      * apply (mps_patched ct cls f); eauto using writable_not_fixed.
  - constructor. now rewrite Hm.
  - constructor. now rewrite Hm.
Qed.

Section Patched.
Variables (ct : gmap cname pyclass) (cls : cname) (f : pyfunction).
Hypothesis Hfix : fixed_class cls = None.

Local Abbreviation ct' := (<[cls := patched (get_class ct cls) f]> ct).

Lemma patched_mro c : mro ct' c = mro ct c.
Proof.
  unfold mro. rewrite get_class_insert by assumption.
  case_decide; subst; reflexivity.
Qed.

Lemma patched_find_rrshift c :
  find_attr ct' cls_rrshift c = find_attr ct cls_rrshift c.
Proof.
  unfold find_attr. rewrite patched_mro. apply find_along_ext.
  intros k. rewrite get_class_insert by assumption.
  case_decide; subst; reflexivity.
Qed.

Lemma patched_getattr_rrshift c :
  getattr ct' cls_rrshift c = getattr ct cls_rrshift c.
Proof. unfold getattr. now rewrite patched_find_rrshift. Qed.

Lemma patched_rshift : getattr ct' cls_rshift cls = Some MPipe.
Proof.
  apply getattr_own. rewrite get_class_insert by assumption.
  rewrite decide_True by reflexivity. reflexivity.
Qed.

Lemma patched_orig_rshift : getattr ct' cls_orig_rshift cls = Some f.
Proof.
  apply getattr_own. rewrite get_class_insert by assumption.
  rewrite decide_True by reflexivity. reflexivity.
Qed.

Lemma patched_reflected_first ta tb :
  reflected_first ct' ta tb = reflected_first ct ta tb.
Proof.
  unfold reflected_first. now rewrite !patched_find_rrshift, patched_mro.
Qed.
End Patched.

(** C3.  Invoking [make_pipesource] on a class a second time ends as the
    first invocation did and leaves the class table as the first
    invocation left it: where the first one patched, the second finds the
    [pipeoperator] flag and patches nothing.  So [a >> b] evaluates after
    two invocations as after one, for every pair of operands, wrappers and
    others alike. *)
Theorem make_pipesource_twice (ct : gmap cname pyclass) (cls : cname) :
  let once := make_pipesource ct cls in
  let twice := make_pipesource once.2 cls in
  twice = once /\
  forall fs a b,
    rshift {| classes := twice.2; funs := fs |} a b
    = rshift {| classes := once.2; funs := fs |} a b.
Proof.
  cbv zeta.
  assert (Hidem : make_pipesource (make_pipesource ct cls).2 cls
                  = make_pipesource ct cls).
  { destruct (make_pipesource_cases ct cls) as [Hm|g Hm Hflag Him|g Hm Hflag Hfix];
      simpl.
    - unfold make_pipesource.
      destruct (getattr ct cls_rshift cls) as [m|]; [|reflexivity].
      now rewrite Hm.
    - unfold make_pipesource. rewrite Hm. simpl. now rewrite Hflag, Him.
    - unfold make_pipesource at 1. now rewrite patched_rshift. }
  split; [exact Hidem|].
  intros fs a b. now rewrite Hidem.
Qed.

(** On a class for which [hasattr(cls, '__rshift__')] is false,
    [make_pipesource] returns without a change. *)
Lemma make_pipesource_no_rshift ct cls :
  hasattr_rshift ct cls = false -> make_pipesource ct cls = (Ret (), ct).
Proof.
  unfold hasattr_rshift, make_pipesource. intros Hno.
  apply bool_decide_eq_false in Hno.
  destruct (getattr ct cls_rshift cls) as [m|]; [|reflexivity].
  exfalso. apply Hno. eauto.
Qed.

(** C4.  For a class that [make_pipesource] has pipe-enabled, and for a
    right operand that is no [PipeVerb], [a >> b] evaluates after the patch
    exactly as it did before, by the class's original [>>] operation: same
    result or same exception, same effect on the heap.  (For a class
    without [>>] there was nothing to patch.) *)
Theorem make_pipesource_preserves_original (w : world) (cls : cname)
    (ct' : gmap cname pyclass) (a b : val) :
  make_pipesource (classes w) cls = (Ret (), ct') ->
  type_of a = cls ->
  is_PipeVerb b = false ->
  rshift {| classes := ct'; funs := funs w |} a b = rshift w a b.
Proof.
  intros Hmake Ha Hb.
  destruct (make_pipesource_cases (classes w) cls)
    as [Hm|g Hm Hflag Him|g Hm Hflag Hfix]; simplify_eq.
  { now destruct w. }
  set (w' := {| classes := _; funs := _ |}).
  assert (Hright : forall m, call_rrshift w' m b a = call_rrshift w m b a).
  { intros [g'|]; [reflexivity|]. now destruct b. }
  unfold rshift. subst w'. cbn [classes].
  rewrite patched_reflected_first, patched_getattr_rrshift by assumption.
  rewrite patched_rshift, Hm by assumption.
  unfold call_rshift. rewrite Hb. cbn [classes].
  rewrite patched_orig_rshift by assumption.
  destruct (decide (type_of a = type_of b)); [reflexivity|].
  destruct (getattr (classes w) cls_rrshift (type_of b)) as [m|]; simpl;
    [|reflexivity].
  rewrite Hright. reflexivity.
Qed.

(** ** The operator [>>] with a [PipeVerb] on the right *)

Lemma reflected_first_PipeVerb ct ta :
  ta <> PipeVerb -> reflected_first ct ta PipeVerb = true ->
  getattr ct cls_rshift ta = None.
Proof.
  intros Hne Hrefl. unfold reflected_first in Hrefl.
  apply andb_prop in Hrefl as [Hrefl _]. apply andb_prop in Hrefl as [_ Hin].
  apply bool_decide_eq_true in Hin. rewrite mro_PipeVerb in Hin.
  apply elem_of_cons in Hin as [->|Hin]; [congruence|].
  apply list_elem_of_singleton in Hin as ->. reflexivity.
Qed.

(** When the left operand hands over, [a >> wrapper] is the wrapped
    function applied to [a], whatever way it ends, unless it returns
    [NotImplemented]. *)
Lemma rshift_PipeVerb w a f args kw h r h' :
  type_of a <> PipeVerb ->
  hands_over (classes w) a (VVerb f args kw) ->
  call w f (a :: args) kw h = (r, h') ->
  r <> Ret VNotImplemented ->
  rshift w a (VVerb f args kw) h = (r, h').
Proof.
  intros Hne Hover Hcall Hr. unfold rshift. cbn [type_of].
  rewrite decide_False by assumption.
  rewrite getattr_rrshift_PipeVerb. cbn [fmap option_fmap option_map call_rrshift].
  assert (Hrr : or_else (PipeVerb___rrshift__ w (VVerb f args kw) a)
                  (raise TypeError) h = (r, h'))
    by now apply or_else_result.
  destruct (reflected_first (classes w) (type_of a) PipeVerb) eqn:Hrefl.
  - rewrite (reflected_first_PipeVerb _ _ Hne Hrefl). now apply or_else_result.
  - unfold hands_over in Hover.
    destruct (getattr (classes w) cls_rshift (type_of a)) as [[g|]|].
    + rewrite or_else_declined by apply Hover. exact Hrr.
    + now apply or_else_result.
    + exact Hrr.
Qed.

(** ** Single dispatch *)

Lemma first_registered_skip registry pre ks :
  (forall c, c ∈ pre -> registry !! c = None) ->
  first_registered registry (pre ++ ks) = first_registered registry ks.
Proof.
  induction pre as [|c pre IH]; intros Hpre; simpl; [reflexivity|].
  rewrite Hpre by left. apply IH. intros c' Hc'. apply Hpre. now right.
Qed.

Lemma dispatch_exact ct registry c impl :
  registry !! c = Some impl -> dispatch ct registry c = Some impl.
Proof. intros Hc. unfold dispatch, mro. simpl. now rewrite Hc. Qed.

Lemma call_first_registered w f registry a args kw pre k post impl :
  funs w !! f = Some (SingleDispatch registry) ->
  mro (classes w) (type_of a) = pre ++ k :: post ->
  (forall c, c ∈ pre -> registry !! c = None) ->
  registry !! k = Some impl ->
  call w f (a :: args) kw = impl (a :: args) kw.
Proof.
  intros Hf Hmro Hpre Hk. unfold call, dispatch.
  rewrite Hf, Hmro, first_registered_skip by assumption.
  simpl. now rewrite Hk.
Qed.

Lemma call_exact w f registry a args kw impl :
  funs w !! f = Some (SingleDispatch registry) ->
  registry !! type_of a = Some impl ->
  call w f (a :: args) kw = impl (a :: args) kw.
Proof.
  intros Hf Ha. unfold call. rewrite Hf. now erewrite dispatch_exact.
Qed.

(** C5, as amended.  A single-dispatch function runs the implementation
    registered for the exact class of its first argument when there is one;
    in general it runs the implementation of the first class along the MRO
    of that class that has one.  So the implementation of a registered
    superclass is preferred to the default one, which is the implementation
    registered under [object] and runs only when no class before [object]
    along the MRO has one. *)
Theorem call_dispatches_along_mro (w : world) (f : fid)
    (registry : gmap cname (list val -> list (string * val) -> M val))
    (a : val) (args : list val) (kw : list (string * val)) :
  funs w !! f = Some (SingleDispatch registry) ->
  (forall impl,
     registry !! type_of a = Some impl ->
     call w f (a :: args) kw = impl (a :: args) kw) /\
  (forall pre k post impl,
     mro (classes w) (type_of a) = pre ++ k :: post ->
     (forall c, c ∈ pre -> registry !! c = None) ->
     registry !! k = Some impl ->
     call w f (a :: args) kw = impl (a :: args) kw).
Proof.
  intros Hf. split.
  - intros impl. now apply call_exact.
  - intros pre k post impl. now apply call_first_registered.
Qed.

(** ** The wrapper and the registrar *)

Lemma PipeVerb___init___inv f args kw h r h' :
  PipeVerb___init__ f args kw h = (Ret r, h') ->
  r = VVerb f args kw /\ h' = h.
Proof.
  unfold PipeVerb___init__, raise, ret.
  destruct (has_key "self" kw || has_key "func" kw); intros H; now simplify_eq.
Qed.

Lemma PipeVerb___init___ok f args kw h :
  has_key "self" kw = false -> has_key "func" kw = false ->
  PipeVerb___init__ f args kw h = (Ret (VVerb f args kw), h).
Proof. intros Hs Hf. unfold PipeVerb___init__. now rewrite Hs, Hf. Qed.

(** C6.  A [PipeVerb] constructed from a function [f], positional
    arguments [args] and named arguments [kw], when applied to an input,
    is the call [f(input, * args, **kw)] and nothing else: the same result
    or the same exception, and the same effect on the heap, from every
    heap.  For a plain function that is the function's code run on these
    arguments. *)
Theorem PipeVerb_applies_func (w : world) (f : fid) (args : list val)
    (kw : list (string * val)) (pv input : val) (h0 h0' : list hobj) :
  PipeVerb___init__ f args kw h0 = (Ret pv, h0') ->
  PipeVerb___rrshift__ w pv input = call w f (input :: args) kw /\
  forall code,
    funs w !! f = Some (Plain code) ->
    PipeVerb___rrshift__ w pv input = code (input :: args) kw.
Proof.
  intros Hnew. apply PipeVerb___init___inv in Hnew as [-> _].
  split; [reflexivity|].
  intros code Hf. simpl. unfold call. now rewrite Hf.
Qed.

(** Calling a verb does not run the function: whatever the function is,
    the call returns the wrapper of the function and of the arguments and
    leaves the heap as it is, as long as no argument is named [self] or
    [func]. *)
Lemma decorated_defers (w : world) (f : fid) (args : list val)
    (kw : list (string * val)) (h : list hobj) :
  has_key "self" kw = false -> has_key "func" kw = false ->
  call_decorated (pipeverb w f) args kw h = (Ret (VVerb f args kw), h).
Proof. intros. now apply PipeVerb___init___ok. Qed.

Lemma decorated_exposes_register (w : world) (f : fid) (cls : cname)
    (impl : list val -> list (string * val) -> M val) :
  has_register w f = true ->
  decorated_register w (pipeverb w f) cls impl = func_register w f cls impl.
Proof. intros Hreg. unfold decorated_register, pipeverb. simpl. now rewrite Hreg. Qed.

(** C7, at a failing input.  Calling a verb with a named argument [func]
    returns no wrapper: [PipeVerb.__init__] has a parameter of that name,
    which the call of [decorated] has already filled, and a [TypeError] is
    raised. *)
Theorem decorated_rejects_func (w : world) (f : fid) (args : list val)
    (x : val) (h : list hobj) :
  call_decorated (pipeverb w f) args [("func", x)] h = (Raise TypeError, h).
Proof. reflexivity. Qed.

(** C1, as amended.  Let a verb have a specialization registered for the
    exact class [T] of the input.  If the input hands a wrapper over to
    the wrapper's reflected operation ([T] is not [PipeVerb], and [T] has
    no [>>] of its own, or one that declines the wrapper, or was
    pipe-enabled), no argument is named [self] or [func], and the
    specialization does not return [NotImplemented], then
    [value >> verb(args)] evaluates exactly as [specialization(value, args)]
    called directly with the same positional and named arguments. *)
Theorem pipe_calls_specialization (w : world) (verb : fid)
    (registry : gmap cname (list val -> list (string * val) -> M val))
    (T : cname) (spec : list val -> list (string * val) -> M val)
    (v : val) (args : list val) (kw : list (string * val)) (h : list hobj) :
  funs w !! verb = Some (SingleDispatch registry) ->
  registry !! T = Some spec ->
  type_of v = T ->
  T <> PipeVerb ->
  hands_over (classes w) v (VVerb verb args kw) ->
  has_key "self" kw = false -> has_key "func" kw = false ->
  (spec (v :: args) kw h).1 <> Ret VNotImplemented ->
  pipe w (ret v) (pipeverb w verb) args kw h = spec (v :: args) kw h.
Proof.
  intros Hverb Hspec HT Hne Hover Hself Hfunc Hres. subst T.
  unfold pipe. rewrite bind_ret_l.
  erewrite bind_result by now apply decorated_defers.
  assert (Hcall : call w verb (v :: args) kw = spec (v :: args) kw)
    by now apply call_exact with registry.
  destruct (spec (v :: args) kw h) as [r h'] eqn:Hrun.
  apply rshift_PipeVerb; try assumption. now rewrite Hcall.
Qed.

(** C10, as amended.  On a class for which [hasattr(cls, '__rshift__')] is
    false, [make_pipesource] changes nothing.  For an instance of such a
    class other than [PipeVerb] itself, [value >> wrapper] evaluates as the
    wrapped function applied to the value and the wrapper's arguments,
    through the wrapper's reflected operation, unless that call returns
    [NotImplemented]. *)
Theorem no_rshift_class_pipes (ct : gmap cname pyclass) (cls : cname) :
  hasattr_rshift ct cls = false ->
  make_pipesource ct cls = (Ret (), ct) /\
  forall fs v f args kw h,
    let w := {| classes := ct; funs := fs |} in
    type_of v = cls ->
    cls <> PipeVerb ->
    (call w f (v :: args) kw h).1 <> Ret VNotImplemented ->
    rshift w v (VVerb f args kw) h = call w f (v :: args) kw h.
Proof.
  intros Hno. split; [now apply make_pipesource_no_rshift|].
  intros fs v f args kw h w Hv Hne Hres. subst cls.
  destruct (call w f (v :: args) kw h) as [r h'] eqn:Hrun.
  apply rshift_PipeVerb; try assumption.
  unfold hands_over. cbn [classes w].
  unfold hasattr_rshift in Hno. apply bool_decide_eq_false in Hno.
  destruct (getattr ct cls_rshift (type_of v)) as [m|]; [|done].
  exfalso. apply Hno. eauto.
Qed.

Lemma first_registered_default registry ks d :
  (forall k, k ∈ ks -> k <> "object" -> registry !! k = None) ->
  "object" ∈ ks ->
  registry !! "object" = Some d ->
  first_registered registry ks = Some d.
Proof.
  intros Hks Hin Hd. induction ks as [|k ks IH]; [inversion Hin|]. simpl.
  destruct (decide (k = "object")) as [->|Hk].
  - now rewrite Hd.
  - rewrite Hks by (assumption || left).
    apply IH.
    + intros k' Hk'. apply Hks. now right.
    + apply elem_of_cons in Hin as [?|?]; congruence.
Qed.

(** Without a registration along the MRO the generic function runs. *)
Lemma call_default w f registry a args kw d :
  funs w !! f = Some (SingleDispatch registry) ->
  unregistered w f (type_of a) ->
  registry !! "object" = Some d ->
  call w f (a :: args) kw = d (a :: args) kw.
Proof.
  intros Hf Hun Hd. unfold call, dispatch. rewrite Hf.
  rewrite (first_registered_default registry _ d); [reflexivity| | |exact Hd].
  - unfold unregistered, registry_of in Hun. rewrite Hf in Hun.
    rewrite Forall_forall in Hun.
    intros k Hk Hobj. destruct (Hun k Hk); congruence.
  - unfold mro. set_solver.
Qed.

(** ** Pipes *)

Lemma pipe_result w value verb args kw h v h1 r h2 :
  value h = (Ret v, h1) ->
  has_key "self" kw = false -> has_key "func" kw = false ->
  type_of v <> PipeVerb ->
  hands_over (classes w) v (VVerb verb args kw) ->
  call w verb (v :: args) kw h1 = (r, h2) ->
  r <> Ret VNotImplemented ->
  pipe w value (pipeverb w verb) args kw h = (r, h2).
Proof.
  intros Hvalue Hself Hfunc Hne Hover Hcall Hr. unfold pipe.
  rewrite (bind_result _ _ _ _ _ Hvalue).
  erewrite bind_result by now apply decorated_defers.
  now apply rshift_PipeVerb.
Qed.

Lemma pipe_value_raises w value verb args kw h e h1 :
  value h = (Raise e, h1) -> pipe w value verb args kw h = (Raise e, h1).
Proof. intros Hvalue. unfold pipe. now apply bind_failure. Qed.

(** ** Argument binding *)

Lemma bind_pos_length params pos kw vs :
  bind_pos params pos kw = Some vs -> length vs = length params.
Proof.
  revert pos vs. induction params as [|p ps IH]; intros pos vs; simpl.
  - destruct pos; intros; simplify_eq. reflexivity.
  - destruct pos as [|v pos'].
    + destruct (lookup_kw (p_name p) kw) as [v|].
      * destruct (bind_pos ps [] kw) eqn:Hps; intros; simplify_eq/=.
        f_equal. eauto.
      * destruct (p_default p); [|discriminate].
        destruct (bind_pos ps [] kw) eqn:Hps; intros; simplify_eq/=.
        f_equal. eauto.
    + destruct (has_key (p_name p) kw); [discriminate|].
      destruct (bind_pos ps pos' kw) eqn:Hps; intros; simplify_eq/=.
      f_equal. eauto.
Qed.

Lemma bind_args_first p ps v pos kw vs :
  bind_args (p :: ps) (v :: pos) kw = Some vs ->
  exists vs', vs = v :: vs' /\ length vs' = length ps.
Proof.
  unfold bind_args. case_match; [|discriminate]. simpl.
  destruct (has_key (p_name p) kw); [discriminate|].
  destruct (bind_pos ps pos kw) as [vs'|] eqn:Hps; intros; simplify_eq/=.
  eauto using bind_pos_length.
Qed.

(** ** Lists *)

Lemma add_list_spec c l xs ys h :
  h !! l = Some (HList xs) ->
  add_list (VRef c l) (VRef "list" (length h)) (h ++ [HList ys])
  = (Ret (VRef "list" (S (length h))), h ++ [HList ys; HList (xs ++ ys)]).
Proof.
  intros Hl. unfold add_list, bind, load.
  rewrite lookup_app_l by eauto using lookup_lt_Some. rewrite Hl.
  rewrite lookup_app_r by reflexivity. rewrite Nat.sub_diag. simpl.
  unfold list_literal, bind, alloc, ret. rewrite length_app, Nat.add_1_r.
  now rewrite <- app_assoc.
Qed.

(** ** The notebook's world *)

Section NotebookFacts.

Variable DataFrame_copy : val -> M val.
Variable DataFrame___setitem__ : val -> val -> val -> M val.
Variable DataFrame_groupby : val -> val -> M val.
Variable pandas_mean : val -> M val.
Variable DataFrame___rshift__ : option (val -> val -> M val).

Local Abbreviation nb :=
  (notebook DataFrame_copy DataFrame___setitem__ DataFrame_groupby
     pandas_mean DataFrame___rshift__).

Lemma notebook_append_col :
  funs nb !! "append_col"
  = Some (SingleDispatch
      (<["list" := append_col_df_list]>
         (<[DataFrame := append_col_df DataFrame_copy DataFrame___setitem__]>
            {[ "object" := append_col ]}))).
Proof. destruct DataFrame___rshift__; reflexivity. Qed.

Lemma notebook_groupby :
  funs nb !! "groupby"
  = Some (SingleDispatch
      (<[DataFrame := groupby_DataFrame DataFrame_groupby]>
         {[ "object" := groupby ]})).
Proof. destruct DataFrame___rshift__; reflexivity. Qed.

Lemma notebook_summarize_mean :
  funs nb !! "summarize_mean"
  = Some (SingleDispatch
      (<[GroupBy := summarize_mean_GroupBy pandas_mean]>
         (<[DataFrame := summarize_mean_DataFrame pandas_mean]>
            {[ "object" := summarize_mean ]}))).
Proof. destruct DataFrame___rshift__; reflexivity. Qed.

(** Whatever pandas has for [DataFrame.__rshift__], after
    [make_pipesource(pd.DataFrame)] a frame hands a wrapper over. *)
Lemma notebook_DataFrame_hands_over a b :
  type_of a = DataFrame -> hands_over (classes nb) a b.
Proof.
  intros Ha. unfold hands_over. rewrite Ha.
  destruct DataFrame___rshift__; exact I.
Qed.

Lemma notebook_DataFrameGroupBy_hands_over a b :
  type_of a = DataFrameGroupBy -> hands_over (classes nb) a b.
Proof.
  intros Ha. unfold hands_over. rewrite Ha.
  destruct DataFrame___rshift__; exact I.
Qed.

Lemma notebook_mro_DataFrameGroupBy :
  mro (classes nb) DataFrameGroupBy = [DataFrameGroupBy; GroupBy; "object"].
Proof. destruct DataFrame___rshift__; reflexivity. Qed.

Lemma notebook_generic name params :
  (name, params) ∈ notebook_verbs ->
  exists registry d,
    funs nb !! name = Some (SingleDispatch registry) /\
    registry !! "object" = Some d /\
    forall v pos kw,
      is_Some (bind_args params (v :: pos) kw) ->
      d (v :: pos) kw
      = raise (NotImplementedError (not_implemented_message name v)).
Proof.
  intros Hin. unfold notebook_verbs in Hin.
  repeat (apply elem_of_cons in Hin as [Hin|Hin]); [..|inversion Hin];
    simplify_eq;
    [ eexists _, append_col | eexists _, groupby | eexists _, summarize_mean ];
    (split; [first [apply notebook_append_col | apply notebook_groupby
                   | apply notebook_summarize_mean]|]);
    (split; [reflexivity|]);
    intros v pos kw [vs Hvs];
    [ unfold append_col | unfold groupby | unfold summarize_mean ];
    unfold with_args; rewrite Hvs;
    apply bind_args_first in Hvs as (vs' & -> & Hlen);
    repeat (destruct vs' as [|? vs']; try discriminate); reflexivity.
Qed.

(** C2, as amended.  For each of the notebook's verbs [append_col],
    [groupby] and [summarize_mean]: when no class along the MRO of the
    input's class has a registration, the input hands a wrapper over, and
    the arguments fit the parameters of the generic function, applying the
    verb through the pipe raises [NotImplementedError] with the message
    [<verb> is not implemented for data of type <class 'T'>], where
    [<class 'T'>] is how Python prints the class.  In particular
    [1 >> append_col()] raises it with the message
    [append_col is not implemented for data of type <class 'int'>]. *)
Theorem unimplemented_raises :
  (forall name params v args kw h,
     (name, params) ∈ notebook_verbs ->
     unregistered nb name (type_of v) ->
     type_of v <> PipeVerb ->
     hands_over (classes nb) v (VVerb name args kw) ->
     has_key "self" kw = false -> has_key "func" kw = false ->
     is_Some (bind_args params (v :: args) kw) ->
     pipe nb (ret v) (pipeverb nb name) args kw h
     = (Raise (NotImplementedError (not_implemented_message name v)), h)) /\
  (forall h,
     pipe nb (ret (VInt 1)) (pipeverb nb "append_col") [] [] h
     = (Raise (NotImplementedError
          "append_col is not implemented for data of type <class 'int'>"), h)).
Proof.
  assert (Hgen : forall name params v args kw h,
     (name, params) ∈ notebook_verbs ->
     unregistered nb name (type_of v) ->
     type_of v <> PipeVerb ->
     hands_over (classes nb) v (VVerb name args kw) ->
     has_key "self" kw = false -> has_key "func" kw = false ->
     is_Some (bind_args params (v :: args) kw) ->
     pipe nb (ret v) (pipeverb nb name) args kw h
     = (Raise (NotImplementedError (not_implemented_message name v)), h)).
  { intros name params v args kw h Hin Hun Hne Hover Hself Hfunc Hbind.
    destruct (notebook_generic name params Hin) as (registry & d & Hf & Hd & Hraise).
    apply pipe_result with v h; try done.
    erewrite call_default by eassumption. now rewrite Hraise. }
  split; [exact Hgen|].
  intros h.
  apply (Hgen "append_col" append_col_params (VInt 1) [] [] h);
    try done.
  - unfold notebook_verbs. set_solver.
  - unfold unregistered, registry_of. rewrite notebook_append_col.
    change (mro (classes nb) (type_of (VInt 1))) with ["int"; "object"].
    constructor; [right; reflexivity|].
    constructor; [left; reflexivity|]. constructor.
Qed.

(** C8, as amended.  For a [DataFrame], with a pandas whose [groupby]
    returns a [DataFrameGroupBy] and whose [mean] does not return
    [NotImplemented], the chain [table >> groupby("b") >> summarize_mean()]
    evaluates exactly as the nested call of the functions that the two
    verbs wrap, the single-dispatch [summarize_mean] applied to the result
    of the single-dispatch [groupby] applied to the table and ["b"]: the
    stages run from left to right, each on the output of the one before.
    That in turn is pandas' [mean] of pandas' [groupby]. *)
Theorem chain_is_nested_call (df : val) (h : list hobj) :
  type_of df = DataFrame ->
  (forall cols h g h',
     DataFrame_groupby df cols h = (Ret g, h') ->
     type_of g = DataFrameGroupBy) ->
  (forall g h r h', pandas_mean g h = (Ret r, h') -> r <> VNotImplemented) ->
  let chain :=
    pipe nb (pipe nb (ret df) (pipeverb nb "groupby") [VStr "b"] [])
      (pipeverb nb "summarize_mean") [] [] in
  chain h
  = (let* g := call nb "groupby" [df; VStr "b"] [] in
     call nb "summarize_mean" [g] []) h /\
  chain h
  = (let* g := DataFrame_groupby df (VStr "b") in pandas_mean g) h.
Proof.
  intros Hdf Hgroupby Hmean chain.
  assert (Hcall1 : call nb "groupby" [df; VStr "b"] []
                   = DataFrame_groupby df (VStr "b")).
  { erewrite call_exact; [|apply notebook_groupby|rewrite Hdf; reflexivity].
    reflexivity. }
  assert (Hcall2 : forall g, type_of g = DataFrameGroupBy ->
                   call nb "summarize_mean" [g] [] = pandas_mean g).
  { intros g Hg.
    erewrite (call_first_registered nb "summarize_mean" _ g [] []
                [DataFrameGroupBy] GroupBy ["object"]);
      [|apply notebook_summarize_mean
       |rewrite Hg; apply notebook_mro_DataFrameGroupBy
       |intros c Hc; apply list_elem_of_singleton in Hc as ->; reflexivity
       |reflexivity].
    reflexivity. }
  assert (Hnested : chain h
    = (let* g := call nb "groupby" [df; VStr "b"] [] in
       call nb "summarize_mean" [g] []) h).
  { subst chain.
    destruct (call nb "groupby" [df; VStr "b"] [] h) as [[g|e] h1] eqn:Hrun1.
    - assert (Hg : type_of g = DataFrameGroupBy)
        by (rewrite Hcall1 in Hrun1; eauto).
      rewrite (bind_result _ _ _ _ _ Hrun1).
      destruct (call nb "summarize_mean" [g] [] h1) as [r h2] eqn:Hrun2.
      apply pipe_result with g h1; try done.
      + apply pipe_result with df h; try done.
        * rewrite Hdf. discriminate.
        * now apply notebook_DataFrame_hands_over.
        * intros [= ->]. discriminate.
      + rewrite Hg. discriminate.
      + now apply notebook_DataFrameGroupBy_hands_over.
      + rewrite Hcall2 in Hrun2 by assumption.
        destruct r as [r|e]; [|discriminate].
        intros [= ->]. eapply Hmean in Hrun2. congruence.
    - rewrite (bind_failure _ _ _ _ _ Hrun1).
      apply pipe_value_raises.
      apply pipe_result with df h; try done.
      + rewrite Hdf. discriminate.
      + now apply notebook_DataFrame_hands_over. }
  split; [exact Hnested|].
  rewrite Hnested, Hcall1. unfold bind.
  destruct (DataFrame_groupby df (VStr "b") h) as [[g|e] h1] eqn:Hrun1;
    [|reflexivity].
  rewrite Hcall2 by eauto. reflexivity.
Qed.

(** C9.  With [append_col] registered for lists as in the notebook,
    [[1, 2] >> append_col()] evaluates to a list with the items 1, 2, 1
    and [[1, 2] >> append_col(x=5)] to one with the items 1, 2, 5; in both
    cases the list that was piped in still holds 1, 2 afterwards, and no
    other object has changed. *)
Theorem append_col_appends (h : list hobj) :
  appends nb [] 1 h /\ appends nb [("x", VInt 5)] 5 h.
Proof.
  assert (Hrun : forall kw x,
    bind_args append_col_params [VRef "list" (length h)] kw
      = Some [VRef "list" (length h); VInt x] ->
    has_key "self" kw = false -> has_key "func" kw = false ->
    appends nb kw x h).
  { intros kw x Hbind Hself Hfunc.
    exists (VRef "list" (length h)),
      (VRef "list" (S (S (length h)))),
      (h ++ [HList [VInt 1; VInt 2]]),
      ((h ++ [HList [VInt 1; VInt 2]])
         ++ [HList [VInt x]; HList [VInt 1; VInt 2; VInt x]]).
    split; [reflexivity|]. split.
    - apply pipe_result with (VRef "list" (length h))
        (h ++ [HList [VInt 1; VInt 2]]); try done.
      erewrite call_exact; [|apply notebook_append_col|reflexivity].
      unfold append_col_df_list, with_args. rewrite Hbind.
      unfold list_literal at 1. unfold bind at 1 2, alloc, ret.
      rewrite (add_list_spec "list" (length h) [VInt 1; VInt 2] [VInt x]).
      + now rewrite !length_app, Nat.add_1_r.
      + rewrite lookup_app_r by reflexivity. now rewrite Nat.sub_diag.
    - split; [|split].
      + unfold list_items.
        rewrite lookup_app_r by (rewrite length_app; simpl; lia).
        rewrite length_app. simpl.
        now replace (S (S (length h)) - (length h + 1))%nat with 1%nat by lia.
      + unfold list_items.
        rewrite lookup_app_l by (rewrite length_app; simpl; lia).
        rewrite lookup_app_r by reflexivity. now rewrite Nat.sub_diag.
      + now apply prefix_app_r. }
  split; apply Hrun; reflexivity.
Qed.

End NotebookFacts.

(** ** Concrete runs *)

(** The cells of the notebook run through, with any pandas. *)
Lemma cells_run copy setitem groupby mean rshift :
  exists w,
    cells copy setitem groupby mean rshift
    = Some (Decorated "append_col" (Some "append_col"),
            Decorated "groupby" (Some "groupby"),
            Decorated "summarize_mean" (Some "summarize_mean"),
            Decorated "my_verb_" (Some "my_verb_"), w).
Proof. destruct rshift; eexists; reflexivity. Qed.

(** [print(1 >> 2)] *)
Example int_rshift_int :
  rshift Pandas.session (VInt 1) (VInt 2) [] = (Ret (VInt 0), []).
Proof. reflexivity. Qed.

(** [[1] >> my_verb(x=2, y=3)] *)
Example my_verb_pipe :
  pipe Pandas.session (list_literal [VInt 1]) (pipeverb Pandas.session "my_verb_")
    [] [("x", VInt 2); ("y", VInt 3)] []
  = (Ret (VRef "list" 2%nat),
     [HList [VInt 1]; HList [VInt 2; VInt 3]; HList [VInt 1; VInt 2; VInt 3]]).
Proof. reflexivity. Qed.

(** [1 >> my_verb()]: the generic [my_verb_] fails on its call of
    [NotImplemented]. *)
Example my_verb_generic :
  pipe Pandas.session (ret (VInt 1)) (pipeverb Pandas.session "my_verb_") [] [] []
  = (Raise TypeError, []).
Proof. reflexivity. Qed.

(** [df >> append_col(x=3)] leaves [df] alone and returns a copy with the
    column [X]. *)
Example append_col_frame :
  pipe Pandas.session (ret Pandas.df) (pipeverb Pandas.session "append_col")
    [] [("x", VInt 3)] Pandas.df_heap
  = (Ret (VRef DataFrame 3%nat),
     Pandas.df_heap
       ++ [HObj [VStr "a"; VRef "list" 0%nat; VStr "b"; VRef "list" 1%nat;
                 VStr "X"; VInt 3]]).
Proof. reflexivity. Qed.

(** [make_pipesource(int)] fails on the immutable type and changes
    nothing. *)
Example make_pipesource_int :
  make_pipesource ∅ "int" = (Raise TypeError, ∅).
Proof. reflexivity. Qed.

(** After [make_pipesource(Frame)]: [frame >> head()] is [head_Frame(frame)]
    and [frame >> 3] is still what [Frame.__rshift__] makes of it. *)
Example frame_after_make_pipesource :
  pipe Frames.after (ret Frames.frame) (pipeverb Frames.after "head") [] []
    Frames.frame_heap
  = (Ret Frames.frame, Frames.frame_heap) /\
  rshift Frames.after Frames.frame (VInt 3) Frames.frame_heap
  = (Ret Frames.frame, Frames.frame_heap) /\
  rshift Frames.after Frames.frame (VStr "x") Frames.frame_heap
  = (Raise TypeError, Frames.frame_heap).
Proof. repeat split; reflexivity. Qed.

(** ** Counterexamples *)

(** C1: [Frame] has a [>>] of its own and was not pipe-enabled: the verb
    has a specialization for [Frame], yet [frame >> head()] is decided by
    [Frame.__rshift__], which raises, while [head_Frame(frame)] returns.
    Two more inputs at which the pipe is not the specialization: for a
    list, [tail] has the specialization [decline], and the [NotImplemented]
    it returns makes [[1, 2] >> tail()] raise; for a wrapper, [tail] has
    the specialization [same], and [head() >> tail()] raises without
    calling it. *)
Lemma unpatched_class_keeps_its_rshift :
  (funs Frames.before !! "head" = Some (SingleDispatch Frames.head_registry) /\
   Frames.head_registry !! Frames.Frame = Some Frames.head_Frame /\
   type_of Frames.frame = Frames.Frame /\
   pipe Frames.before (ret Frames.frame) (pipeverb Frames.before "head")
     [] [] Frames.frame_heap
   = (Raise TypeError, Frames.frame_heap) /\
   Frames.head_Frame [Frames.frame] [] Frames.frame_heap
   = (Ret Frames.frame, Frames.frame_heap) /\
   pipe Frames.before (ret Frames.frame) (pipeverb Frames.before "head")
     [] [] Frames.frame_heap
   <> Frames.head_Frame [Frames.frame] [] Frames.frame_heap) /\
  (funs Frames.before !! "tail" = Some (SingleDispatch Frames.tail_registry) /\
   Frames.tail_registry !! "list" = Some Frames.decline /\
   pipe Frames.before (ret (VRef "list" 0%nat)) (pipeverb Frames.before "tail")
     [] [] [HList [VInt 1; VInt 2]]
   = (Raise TypeError, [HList [VInt 1; VInt 2]]) /\
   Frames.decline [VRef "list" 0%nat] [] [HList [VInt 1; VInt 2]]
   = (Ret VNotImplemented, [HList [VInt 1; VInt 2]])) /\
  (Frames.tail_registry !! PipeVerb = Some Frames.same /\
   pipe Frames.before (ret (VVerb "head" [] [])) (pipeverb Frames.before "tail")
     [] [] []
   = (Raise TypeError, []) /\
   Frames.same [VVerb "head" [] []] [] [] = (Ret (VVerb "head" [] []), [])).
Proof. repeat split; try reflexivity. discriminate. Qed.

(** C2: the message of [1 >> append_col()] names the type as [%s] prints a
    class, not by its bare name.  Two more inputs at which a verb meets a
    type without a registration and the claimed error is not raised:
    [grouped >> summarize_mean()] runs the implementation of the
    superclass [GroupBy], and [1 >> groupby()] fails on the missing
    argument [columns] before the generic function can raise. *)
Lemma unimplemented_message_is_class_repr :
  (pipe Pandas.session (ret (VInt 1)) (pipeverb Pandas.session "append_col")
     [] [] []
   = (Raise (NotImplementedError
        "append_col is not implemented for data of type <class 'int'>"), []) /\
   pipe Pandas.session (ret (VInt 1)) (pipeverb Pandas.session "append_col")
     [] [] []
   <> (Raise (NotImplementedError
         "append_col is not implemented for data of type int"), [])) /\
  (registry_of Pandas.session "summarize_mean" !! type_of Pandas.grouped = None /\
   pipe Pandas.session (ret Pandas.grouped)
     (pipeverb Pandas.session "summarize_mean") [] [] Pandas.grouped_heap
   = (Ret (VRef DataFrame 4%nat),
      Pandas.grouped_heap ++ [HObj [VStr "mean"; Pandas.grouped]])) /\
  (registry_of Pandas.session "groupby" !! "int" = None /\
   pipe Pandas.session (ret (VInt 1)) (pipeverb Pandas.session "groupby")
     [] [] []
   = (Raise TypeError, [])).
Proof. repeat split; try reflexivity. discriminate. Qed.

(** C5: nothing is registered for [DataFrameGroupBy] itself,
    [summarize_mean_GroupBy] is registered for its superclass [GroupBy],
    and for a [DataFrameGroupBy] it is that implementation that runs, not
    the default one. *)
Lemma superclass_implementation_runs :
  registry_of Pandas.session "summarize_mean" !! DataFrameGroupBy = None /\
  GroupBy ∈ mro (classes Pandas.session) DataFrameGroupBy /\
  is_Some (registry_of Pandas.session "summarize_mean" !! GroupBy) /\
  call Pandas.session "summarize_mean" [Pandas.grouped] [] Pandas.grouped_heap
  = summarize_mean_GroupBy Pandas.mean [Pandas.grouped] [] Pandas.grouped_heap /\
  call Pandas.session "summarize_mean" [Pandas.grouped] [] Pandas.grouped_heap
  <> summarize_mean [Pandas.grouped] [] Pandas.grouped_heap.
Proof.
  split; [reflexivity|]. split; [|split; [|split]].
  - change (mro (classes Pandas.session) DataFrameGroupBy)
      with [DataFrameGroupBy; GroupBy; "object"].
    apply list_elem_of_further, list_elem_of_here.
  - eexists. reflexivity.
  - reflexivity.
  - discriminate.
Qed.

(** C8: the nested call of the verbs themselves runs nothing and yields a
    wrapper around a wrapper, which is not what the chain evaluates to. *)
Lemma nested_verbs_only_wrap :
  (let* g := call_decorated (pipeverb Pandas.session "groupby")
               [Pandas.df; VStr "b"] [] in
   call_decorated (pipeverb Pandas.session "summarize_mean") [g] [])
    Pandas.df_heap
  = (Ret (VVerb "summarize_mean" [VVerb "groupby" [Pandas.df; VStr "b"] []] []),
     Pandas.df_heap) /\
  pipe Pandas.session
    (pipe Pandas.session (ret Pandas.df) (pipeverb Pandas.session "groupby")
       [VStr "b"] [])
    (pipeverb Pandas.session "summarize_mean") [] [] Pandas.df_heap
  = (Ret (VRef DataFrame 4%nat),
     Pandas.df_heap
       ++ [HObj [Pandas.df; VStr "b"];
           HObj [VStr "mean"; VRef DataFrameGroupBy 3%nat]]) /\
  pipe Pandas.session
    (pipe Pandas.session (ret Pandas.df) (pipeverb Pandas.session "groupby")
       [VStr "b"] [])
    (pipeverb Pandas.session "summarize_mean") [] [] Pandas.df_heap
  <> (let* g := call_decorated (pipeverb Pandas.session "groupby")
                  [Pandas.df; VStr "b"] [] in
      call_decorated (pipeverb Pandas.session "summarize_mean") [g] [])
       Pandas.df_heap.
Proof. repeat split; try reflexivity. discriminate. Qed.

(** C10: [PipeVerb] is a class without [__rshift__], and for a wrapper on
    the left the reflected method of the wrapper on the right is not
    tried: [head() >> same()] raises, while [same] applied to the left
    wrapper returns it.  And [list] is a class without [__rshift__], but
    [[1, 2] >> decline()] raises, while [decline] applied to the list
    returns [NotImplemented]. *)
Lemma wrapper_does_not_pipe_into_wrapper :
  (hasattr_rshift (classes Frames.before) PipeVerb = false /\
   type_of (VVerb "head" [] []) = PipeVerb /\
   rshift Frames.before (VVerb "head" [] []) (VVerb "same" [] []) []
   = (Raise TypeError, []) /\
   call Frames.before "same" [VVerb "head" [] []] [] []
   = (Ret (VVerb "head" [] []), []) /\
   rshift Frames.before (VVerb "head" [] []) (VVerb "same" [] []) []
   <> call Frames.before "same" [VVerb "head" [] []] [] []) /\
  (hasattr_rshift (classes Frames.before) "list" = false /\
   rshift Frames.before (VRef "list" 0%nat) (VVerb "decline" [] [])
     [HList [VInt 1; VInt 2]]
   = (Raise TypeError, [HList [VInt 1; VInt 2]]) /\
   call Frames.before "decline" [VRef "list" 0%nat] [] [HList [VInt 1; VInt 2]]
   = (Ret VNotImplemented, [HList [VInt 1; VInt 2]])).
Proof. repeat split; try reflexivity. discriminate. Qed.

(** ** Instances of the theorems *)

Lemma pipe_calls_specialization_witness :
  pipe Frames.after (ret Frames.frame) (pipeverb Frames.after "head")
    [] [] Frames.frame_heap
  = Frames.head_Frame [Frames.frame] [] Frames.frame_heap.
Proof.
  apply (pipe_calls_specialization Frames.after "head" Frames.head_registry
           Frames.Frame Frames.head_Frame Frames.frame [] []
           Frames.frame_heap).
  - reflexivity.
  - reflexivity.
  - reflexivity.
  - discriminate.
  - vm_compute. exact I.
  - reflexivity.
  - reflexivity.
  - discriminate.
Defined.

Lemma unimplemented_raises_witness :
  pipe Pandas.session (ret (VInt 1)) (pipeverb Pandas.session "append_col") [] [] []
  = (Raise (NotImplementedError (not_implemented_message "append_col" (VInt 1))),
     []).
Proof.
  apply (proj1 (unimplemented_raises Pandas.copy Pandas.setitem Pandas.groupby
                  Pandas.mean None)
           "append_col" append_col_params (VInt 1) [] [] []).
  - apply list_elem_of_here.
  - vm_compute. constructor; [right; reflexivity|].
    constructor; [left; reflexivity|]. constructor.
  - discriminate.
  - intros h. reflexivity.
  - reflexivity.
  - reflexivity.
  - eexists. reflexivity.
Defined.

Lemma make_pipesource_preserves_original_witness :
  rshift Frames.after Frames.frame (VInt 3)
  = rshift Frames.before Frames.frame (VInt 3).
Proof.
  apply (make_pipesource_preserves_original Frames.before Frames.Frame
           (classes Frames.after) Frames.frame (VInt 3));
    reflexivity.
Defined.

Lemma call_dispatches_along_mro_witness :
  call Pandas.session "summarize_mean" [Pandas.grouped] []
  = summarize_mean_GroupBy Pandas.mean [Pandas.grouped] [].
Proof.
  eapply (proj2 (call_dispatches_along_mro Pandas.session "summarize_mean" _
                   Pandas.grouped [] [] ltac:(reflexivity))
            [DataFrameGroupBy] GroupBy ["object"]).
  - reflexivity.
  - intros c Hc. apply list_elem_of_singleton in Hc as ->. reflexivity.
  - reflexivity.
Defined.

Lemma PipeVerb_applies_func_witness :
  PipeVerb___rrshift__ Frames.before (VVerb "same" [] []) Frames.frame
  = Frames.same [Frames.frame] [].
Proof.
  apply (proj2 (PipeVerb_applies_func Frames.before "same" [] []
                  (VVerb "same" [] []) Frames.frame [] []
                  ltac:(reflexivity))).
  reflexivity.
Defined.

Lemma chain_is_nested_call_witness :
  pipe Pandas.session
    (pipe Pandas.session (ret Pandas.df) (pipeverb Pandas.session "groupby")
       [VStr "b"] [])
    (pipeverb Pandas.session "summarize_mean") [] [] Pandas.df_heap
  = (let* g := call Pandas.session "groupby" [Pandas.df; VStr "b"] [] in
     call Pandas.session "summarize_mean" [g] []) Pandas.df_heap.
Proof.
  apply (chain_is_nested_call Pandas.copy Pandas.setitem Pandas.groupby
           Pandas.mean None Pandas.df Pandas.df_heap).
  - reflexivity.
  - intros cols h g h' [= <- _]. reflexivity.
  - intros g h r h' [= <- _]. discriminate.
Defined.

Lemma no_rshift_class_pipes_witness :
  make_pipesource ∅ "list" = (Ret (), ∅) /\
  rshift Frames.before (VRef "list" 0%nat) (VVerb "same" [] [])
    [HList [VInt 1; VInt 2]]
  = call Frames.before "same" [VRef "list" 0%nat] [] [HList [VInt 1; VInt 2]].
Proof.
  split.
  - apply (no_rshift_class_pipes ∅ "list"). reflexivity.
  - apply (proj2 (no_rshift_class_pipes (classes Frames.before) "list"
                    ltac:(reflexivity))
             (funs Frames.before) (VRef "list" 0%nat) "same" [] []);
      [reflexivity|discriminate|discriminate].
Defined.

(** * Further properties of the pipe mechanism *)

(** ** What [make_pipesource] leaves alone *)

(** Dispatch reads the class table through the MRO only. *)
Lemma call_same_mro ct ct' fs f pos kw :
  (forall c, mro ct' c = mro ct c) ->
  call {| classes := ct'; funs := fs |} f pos kw
  = call {| classes := ct; funs := fs |} f pos kw.
Proof.
  intros Hmro. unfold call, dispatch. cbn [classes funs].
  destruct (fs !! f) as [[code|registry]|]; try reflexivity.
  destruct pos as [|a pos]; [reflexivity|]. now rewrite Hmro.
Qed.

Lemma make_pipesource_mro ct cls c :
  mro (make_pipesource ct cls).2 c = mro ct c.
Proof.
  destruct (make_pipesource_cases ct cls) as [?|?|g Hm Hflag Hfix];
    simpl; auto using patched_mro.
Qed.

Lemma make_pipesource_find_rrshift ct cls c :
  find_attr (make_pipesource ct cls).2 cls_rrshift c = find_attr ct cls_rrshift c.
Proof.
  destruct (make_pipesource_cases ct cls) as [?|?|g Hm Hflag Hfix];
    simpl; auto using patched_find_rrshift.
Qed.

Lemma make_pipesource_other ct cls c :
  c <> cls -> get_class (make_pipesource ct cls).2 c = get_class ct c.
Proof.
  intros Hc.
  destruct (make_pipesource_cases ct cls) as [?|?|g Hm Hflag Hfix];
    simpl; try reflexivity.
  rewrite get_class_insert by assumption. now rewrite decide_False.
Qed.

Lemma make_pipesource_call ct cls fs f pos kw :
  call {| classes := (make_pipesource ct cls).2; funs := fs |} f pos kw
  = call {| classes := ct; funs := fs |} f pos kw.
Proof. apply call_same_mro. intros c. apply make_pipesource_mro. Qed.


Lemma find_along_other {A} ct ct' (get : pyclass -> option A) ks :
  (forall k, k ∈ ks -> get_class ct' k = get_class ct k) ->
  find_along ct' get ks = find_along ct get ks.
Proof.
  induction ks as [|k ks IH]; intros Hks; simpl; [reflexivity|].
  rewrite Hks by left. rewrite IH; [reflexivity|].
  intros k' Hk'. apply Hks. now right.
Qed.

(** X2.  Pipe-enabling a class does not change [>>] for the instances of a
    class that does not derive from it, whatever the right operand. *)
Theorem make_pipesource_unrelated (w : world) (cls : cname) (a b : val) :
  cls ∉ mro (classes w) (type_of a) ->
  rshift {| classes := (make_pipesource (classes w) cls).2; funs := funs w |} a b
  = rshift w a b.
Proof.
  intros Hnot. destruct w as [ct fs]. cbn [classes funs] in *.
  set (ct' := (make_pipesource ct cls).2).
  assert (Hattr : forall A (get : pyclass -> option A),
            getattr ct' get (type_of a) = getattr ct get (type_of a)).
  { intros A get. unfold getattr, find_attr. subst ct'.
    rewrite make_pipesource_mro. f_equal. apply find_along_other.
    intros k Hk. apply make_pipesource_other. intros ->. contradiction. }
  assert (Hrr : forall v u,
            PipeVerb___rrshift__ {| classes := ct'; funs := fs |} v u
            = PipeVerb___rrshift__ {| classes := ct; funs := fs |} v u).
  { intros [] u; try reflexivity. apply make_pipesource_call. }
  unfold rshift. cbn [classes].
  assert (Hrefl : reflected_first ct' (type_of a) (type_of b)
                  = reflected_first ct (type_of a) (type_of b)).
  { unfold reflected_first. subst ct'.
    now rewrite !make_pipesource_find_rrshift, make_pipesource_mro. }
  rewrite Hrefl, Hattr.
  assert (Hgr : getattr ct' cls_rrshift (type_of b)
                = getattr ct cls_rrshift (type_of b)).
  { unfold getattr. subst ct'. now rewrite make_pipesource_find_rrshift. }
  rewrite Hgr.
  assert (Hleft : forall m,
            call_rshift {| classes := ct'; funs := fs |} m a b
            = call_rshift {| classes := ct; funs := fs |} m a b).
  { intros [g|]; [reflexivity|]. unfold call_rshift. cbn [classes].
    now rewrite Hrr, Hattr. }
  assert (Hright : forall m,
            call_rrshift {| classes := ct'; funs := fs |} m b a
            = call_rrshift {| classes := ct; funs := fs |} m b a).
  { intros [g|]; [reflexivity|]. apply Hrr. }
  destruct (getattr ct cls_rshift (type_of a)) as [m|];
    destruct (decide (type_of a = type_of b));
    destruct (getattr ct cls_rrshift (type_of b)) as [m'|]; simpl;
    rewrite ?Hleft, ?Hright; reflexivity.
Qed.

(** ** What [make_pipesource] achieves *)

(** After [make_pipesource(cls)] has patched, the class [cls] and every
    class that reaches [cls] along its MRO before any class with a
    [__rshift__] of its own have the closure as their [__rshift__]. *)
Lemma patched_inherited ct cls f c pre post :
  fixed_class cls = None ->
  mro ct c = pre ++ cls :: post ->
  (forall k, k ∈ pre -> cls_rshift (get_class ct k) = None) ->
  getattr (<[cls := patched (get_class ct cls) f]> ct) cls_rshift c = Some MPipe.
Proof.
  intros Hfix Hmro Hpre. unfold getattr, find_attr.
  rewrite patched_mro, Hmro by assumption. clear Hmro.
  induction pre as [|k pre IH]; simpl.
  - rewrite get_class_insert by assumption. now rewrite decide_True.
  - rewrite get_class_insert by assumption. case_decide as Hk.
    + reflexivity.
    + rewrite Hpre by left. apply IH. intros k' Hk'. apply Hpre. now right.
Qed.

Lemma derived_not_PipeVerb ct cls c :
  fixed_class cls = None -> cls ∈ mro ct c -> c <> PipeVerb.
Proof.
  intros Hfix Hin ->. rewrite mro_PipeVerb in Hin.
  apply elem_of_cons in Hin as [->|Hin]; [discriminate|].
  apply list_elem_of_singleton in Hin as ->. discriminate.
Qed.

(** X1.  Let a class have a [__rshift__] that is a function without the
    [pipeoperator] flag, whatever it does.  Once [make_pipesource] has run
    on the class, [a >> wrapper] is the wrapped function applied to [a] and
    the wrapper's arguments, for every instance [a] of the class and of
    every subclass that reaches the class along its MRO before any
    [__rshift__] of its own; and [make_pipesource] on such a subclass then
    changes nothing. *)
Theorem make_pipesource_enables (w : world) (cls : cname) (g : pyfunction)
    (ct' : gmap cname pyclass) (c : cname) (pre post : list cname)
    (a : val) (f : fid) (args : list val) (kw : list (string * val))
    (h : list hobj) :
  getattr (classes w) cls_rshift cls = Some (MFun g) ->
  fn_pipeoperator g = false ->
  make_pipesource (classes w) cls = (Ret (), ct') ->
  mro (classes w) c = pre ++ cls :: post ->
  (forall k, k ∈ pre -> cls_rshift (get_class (classes w) k) = None) ->
  type_of a = c ->
  let w' := {| classes := ct'; funs := funs w |} in
  (call w' f (a :: args) kw h).1 <> Ret VNotImplemented ->
  rshift w' a (VVerb f args kw) h = call w' f (a :: args) kw h /\
  make_pipesource ct' c = (Ret (), ct').
Proof.
  intros Hg Hflag Hmake Hmro Hpre Ha w' Hres.
  destruct (make_pipesource_cases (classes w) cls)
    as [Hm|g' Hm' Hflag' Him|g' Hm' Hflag' Hfix].
  - rewrite Hg in Hm. simpl in Hm. congruence.
  - congruence.
  - assert (ct' = <[cls := patched (get_class (classes w) cls) g']> (classes w))
      as -> by congruence.
    assert (Hpipe : getattr (classes w') cls_rshift c = Some MPipe)
      by now apply patched_inherited with pre post.
    split.
    + destruct (call w' f (a :: args) kw h) as [r h'] eqn:Hrun.
      apply rshift_PipeVerb; try assumption.
      * rewrite Ha. apply (derived_not_PipeVerb (classes w) cls); [assumption|].
        rewrite Hmro. set_solver.
      * unfold hands_over. rewrite Ha. now rewrite Hpipe.
    + unfold make_pipesource. cbn [classes w'] in Hpipe. now rewrite Hpipe.
Qed.

(** X4.  On a class whose [__rshift__] is the closure of [make_pipesource], a
    wrapped function that returns [NotImplemented] is called a second
    time, by the reflected method, in the heap the first call left; if it
    returns [NotImplemented] again, [>>] raises [TypeError], and the
    effects of both calls stay. *)
Theorem pipe_enabled_calls_twice (w : world) (a : val) (f : fid)
    (args : list val) (kw : list (string * val)) (h h1 h2 : list hobj) :
  getattr (classes w) cls_rshift (type_of a) = Some MPipe ->
  call w f (a :: args) kw h = (Ret VNotImplemented, h1) ->
  call w f (a :: args) kw h1 = (Ret VNotImplemented, h2) ->
  rshift w a (VVerb f args kw) h = (Raise TypeError, h2).
Proof.
  intros Hpipe Hcall1 Hcall2. unfold rshift. cbn [type_of].
  assert (Hne : type_of a <> PipeVerb).
  { intros Heq. rewrite Heq in Hpipe. discriminate. }
  rewrite decide_False by assumption.
  rewrite getattr_rrshift_PipeVerb, Hpipe.
  destruct (reflected_first (classes w) (type_of a) PipeVerb) eqn:Hrefl.
  - apply reflected_first_PipeVerb in Hrefl; congruence.
  - cbn [fmap option_fmap option_map call_rrshift call_rshift is_PipeVerb
         PipeVerb___rrshift__].
    unfold or_else at 1. rewrite (bind_result _ _ _ _ _ Hcall1). simpl.
    unfold or_else. rewrite (bind_result _ _ _ _ _ Hcall2). reflexivity.
Qed.

(** ** Pipelines *)

Lemma pipeline_raises w value stages h e h1 :
  value h = (Raise e, h1) -> pipeline w value stages h = (Raise e, h1).
Proof.
  revert value. induction stages as [|s ss IH]; intros value Hvalue; simpl.
  - assumption.
  - apply IH. now apply pipe_value_raises.
Qed.

Lemma pipeline_nested w stages :
  forall value h v h1,
    value h = (Ret v, h1) ->
    runs_through w v stages h1 ->
    pipeline w value stages h = nested w v stages h1.
Proof.
  induction stages as [|s ss IH]; intros value h v h1 Hvalue Hruns; simpl.
  - assumption.
  - destruct Hruns as (Hself & Hfunc & Hne & Hover & Hruns).
    destruct (call w (st_verb s) (v :: st_args s) (st_kwargs s) h1)
      as [[r|e] h2] eqn:Hrun.
    + destruct Hruns as [Hr Hruns].
      rewrite (bind_result _ _ _ _ _ Hrun).
      apply IH; [|assumption].
      apply pipe_result with v h1; try assumption. congruence.
    + rewrite (bind_failure _ _ _ _ _ Hrun).
      apply pipeline_raises.
      apply pipe_result with v h1; try assumption. discriminate.
Qed.

(** X5.  A pipeline of any number of stages evaluates as the nested call of
    the functions that its verbs wrap, stage by stage from the left, each
    stage on the result of the one before and in the heap it left; the
    first stage that raises ends the pipeline with its exception.  This
    holds when the pipeline gets through: every value that comes to stand
    on the left of a wrapper hands it over and is not [NotImplemented],
    and no argument is named [self] or [func]. *)
Theorem pipeline_is_nested_call (w : world) (v : val) (stages : list stage)
    (h : list hobj) :
  runs_through w v stages h ->
  pipeline w (ret v) stages h = nested w v stages h.
Proof.
  intros Hruns. now apply pipeline_nested with (value := ret v) (v := v).
Qed.

(** ** Registration *)

Lemma func_register_call w w' f cls impl :
  func_register w f cls impl = Some w' ->
  (forall a args kw,
     type_of a = cls -> call w' f (a :: args) kw = impl (a :: args) kw) /\
  (forall a args kw,
     cls ∉ mro (classes w) (type_of a) ->
     call w' f (a :: args) kw = call w f (a :: args) kw) /\
  (forall g pos kw, g <> f -> call w' g pos kw = call w g pos kw) /\
  classes w' = classes w.
Proof.
  unfold func_register. intros Hreg.
  destruct (funs w !! f) as [fn|] eqn:Hf; [|discriminate]. simpl in Hreg.
  destruct fn as [code|registry]; [discriminate|]. simpl in Hreg.
  simplify_eq. split; [|split; [|split]].
  - intros a args kw <-. unfold call, dispatch. cbn [funs classes].
    rewrite lookup_insert_eq. unfold mro. simpl.
    now rewrite lookup_insert_eq.
  - intros a args kw Hnot. unfold call, dispatch. cbn [funs classes].
    rewrite lookup_insert_eq, Hf.
    assert (Hsame : forall ks, cls ∉ ks ->
              first_registered (<[cls := impl]> registry) ks
              = first_registered registry ks).
    { induction ks as [|k ks IH]; intros Hks; simpl; [reflexivity|].
      rewrite lookup_insert_ne by set_solver.
      rewrite IH by set_solver. reflexivity. }
    now rewrite Hsame.
  - intros g pos kw Hg. unfold call. cbn [funs classes].
    now rewrite lookup_insert_ne by congruence.
  - reflexivity.
Qed.

(** X6.  After [verb.register(cls)(impl)] on a verb, whatever was registered
    before, the function that the verb wraps runs [impl] on an instance of
    exactly [cls]; on a value whose class does not derive from [cls] it
    runs what it ran before; and no other function and no class has
    changed. *)
Theorem register_then_call (w w' : world) (f : fid) (cls : cname)
    (impl : list val -> list (string * val) -> M val) :
  decorated_register w (pipeverb w f) cls impl = Some w' ->
  (forall a args kw,
     type_of a = cls -> call w' f (a :: args) kw = impl (a :: args) kw) /\
  (forall a args kw,
     cls ∉ mro (classes w) (type_of a) ->
     call w' f (a :: args) kw = call w f (a :: args) kw) /\
  (forall g pos kw, g <> f -> call w' g pos kw = call w g pos kw) /\
  classes w' = classes w.
Proof.
  unfold decorated_register, pipeverb. cbn [dec_register].
  destruct (has_register w f); [|discriminate].
  apply func_register_call.
Qed.

(** X7.  A verb that [pipeverb] makes from a plain function has no
    [register], and the pipe calls the function itself on an input of any
    class that hands over. *)
Theorem plain_pipeverb (w : world) (f : fid)
    (code : list val -> list (string * val) -> M val)
    (v : val) (args : list val) (kw : list (string * val)) (h : list hobj) :
  funs w !! f = Some (Plain code) ->
  type_of v <> PipeVerb ->
  hands_over (classes w) v (VVerb f args kw) ->
  has_key "self" kw = false -> has_key "func" kw = false ->
  (code (v :: args) kw h).1 <> Ret VNotImplemented ->
  (forall cls impl, decorated_register w (pipeverb w f) cls impl = None) /\
  pipe w (ret v) (pipeverb w f) args kw h = code (v :: args) kw h.
Proof.
  intros Hf Hne Hover Hself Hfunc Hres. split.
  - intros cls impl. unfold decorated_register, pipeverb, has_register.
    now rewrite Hf.
  - destruct (code (v :: args) kw h) as [r h'] eqn:Hrun.
    apply pipe_result with v h; try done.
    unfold call. now rewrite Hf.
Qed.

(** ** More of the notebook's verbs *)

Lemma first_registered_lookup registry ks impl :
  first_registered registry ks = Some impl ->
  exists k, k ∈ ks /\ registry !! k = Some impl.
Proof.
  induction ks as [|k ks IH]; simpl; [discriminate|].
  destruct (registry !! k) as [impl'|] eqn:Hk.
  - intros [= <-]. exists k. split; [left|assumption].
  - intros Hks. destruct (IH Hks) as (k' & Hin & Hk'). exists k'.
    split; [now right|assumption].
Qed.

Lemma add_list_result a b h r h' :
  add_list a b h = (Ret r, h') -> exists l, r = VRef "list" l.
Proof.
  unfold add_list. destruct a, b; try discriminate.
  unfold bind, load. repeat case_match; try discriminate.
  unfold list_literal, bind, alloc, ret. intros [= <- _]. eauto.
Qed.

Section NotebookMore.

Variable DataFrame_copy : val -> M val.
Variable DataFrame___setitem__ : val -> val -> val -> M val.
Variable DataFrame_groupby : val -> val -> M val.
Variable pandas_mean : val -> M val.
Variable DataFrame___rshift__ : option (val -> val -> M val).

Local Abbreviation nb :=
  (notebook DataFrame_copy DataFrame___setitem__ DataFrame_groupby
     pandas_mean DataFrame___rshift__).

Lemma notebook_my_verb_ :
  funs nb !! "my_verb_"
  = Some (SingleDispatch (<["list" := my_verb_df]> {[ "object" := my_verb_ ]})).
Proof. destruct DataFrame___rshift__; reflexivity. Qed.

Lemma my_verb__raises pos kw h : exists e, my_verb_ pos kw h = (Raise e, h).
Proof.
  unfold my_verb_, with_args. destruct (bind_args _ _ _); eexists; reflexivity.
Qed.

Lemma my_verb_df_result pos kw h r h' :
  my_verb_df pos kw h = (Ret r, h') -> exists l, r = VRef "list" l.
Proof.
  unfold my_verb_df, with_args.
  destruct (bind_args _ _ _) as [vs|]; [|discriminate].
  destruct vs as [|input [|x [|y [|]]]]; try discriminate.
  unfold bind at 1. unfold list_literal at 1.
  unfold bind at 1, alloc, ret.
  apply add_list_result.
Qed.

Lemma my_verb_never_NotImplemented pos kw h :
  (call nb "my_verb_" pos kw h).1 <> Ret VNotImplemented.
Proof.
  unfold call. rewrite notebook_my_verb_.
  destruct pos as [|a pos]; [discriminate|].
  destruct (dispatch _ _ _) as [impl|] eqn:Himpl; [|discriminate].
  apply first_registered_lookup in Himpl as (k & _ & Hk).
  apply lookup_insert_Some in Hk as [[_ <-]|[_ Hk]].
  - destruct (my_verb_df (a :: pos) kw h) as [[r|e] h'] eqn:Hrun; [|discriminate].
    apply my_verb_df_result in Hrun as [l ->]. discriminate.
  - apply lookup_singleton_Some in Hk as [_ <-].
    destruct (my_verb__raises (a :: pos) kw h) as [e ->]. discriminate.
Qed.

(** X8.  The verb [my_verb] and the function [my_verb_] are two ways to the
    same computation: [v >> my_verb( *args, **kwargs)] evaluates exactly as
    [my_verb_(v, *args, **kwargs)], for every input that hands a wrapper
    over and all arguments not named [self] or [func]. *)
Theorem my_verb_both_versions (v : val) (args : list val)
    (kw : list (string * val)) (h : list hobj) :
  type_of v <> PipeVerb ->
  hands_over (classes nb) v (VVerb "my_verb_" args kw) ->
  has_key "self" kw = false -> has_key "func" kw = false ->
  pipe nb (ret v) (pipeverb nb "my_verb_") args kw h
  = call nb "my_verb_" (v :: args) kw h.
Proof.
  intros Hne Hover Hself Hfunc.
  destruct (call nb "my_verb_" (v :: args) kw h) as [r h'] eqn:Hrun.
  apply pipe_result with v h; try done.
  pose proof (my_verb_never_NotImplemented (v :: args) kw h) as Hni.
  now rewrite Hrun in Hni.
Qed.

(** X9.  For a value without a registered class along its MRO, [my_verb_]
    raises [TypeError] and never [NotImplementedError], whatever the other
    arguments: its generic function calls [NotImplemented]. *)
Theorem my_verb_generic_raises_TypeError (v : val) (args : list val)
    (kw : list (string * val)) (h : list hobj) :
  unregistered nb "my_verb_" (type_of v) ->
  call nb "my_verb_" (v :: args) kw h = (Raise TypeError, h).
Proof.
  intros Hun.
  erewrite call_default; [|apply notebook_my_verb_|assumption|reflexivity].
  unfold my_verb_, with_args. now destruct (bind_args _ _ _).
Qed.

(** X10.  [append_col] on any list, whichever way [x] is given: the pipe
    returns a new list that holds the items of the input followed by [x];
    the input list and every object that existed keep their contents. *)
Theorem append_col_list_is_fresh (l : nat) (xs : list val) (x : val)
    (args : list val) (kw : list (string * val)) (h : list hobj) :
  h !! l = Some (HList xs) ->
  bind_args append_col_params (VRef "list" l :: args) kw
    = Some [VRef "list" l; x] ->
  has_key "self" kw = false -> has_key "func" kw = false ->
  exists out h',
    pipe nb (ret (VRef "list" l)) (pipeverb nb "append_col") args kw h
    = (Ret out, h') /\
    list_items h' out = Some (xs ++ [x]) /\
    out <> VRef "list" l /\
    h `prefix_of` h'.
Proof.
  intros Hl Hbind Hself Hfunc.
  exists (VRef "list" (S (length h))), (h ++ [HList [x]; HList (xs ++ [x])]).
  split; [|split; [|split]].
  - apply pipe_result with (VRef "list" l) h; try done.
    erewrite call_exact; [|apply notebook_append_col|reflexivity].
    unfold append_col_df_list, with_args. rewrite Hbind.
    unfold list_literal at 1. unfold bind at 1 2, alloc, ret.
    now apply add_list_spec.
  - unfold list_items.
    rewrite lookup_app_r by lia.
    match goal with |- context [ ([_; _] !! ?i) ] =>
      replace i with 1%nat by lia end.
    reflexivity.
  - intros [= <-]. apply lookup_lt_Some in Hl. lia.
  - now apply prefix_app_r.
Qed.

(** X11.  [append_col] on a frame returns new data: if [copy] returns a new
    object and leaves the others alone, and [copy[key] = x] changes no
    object but [copy], then after [df >> append_col(...)] the frame that
    was piped in holds what it held, and the result is another object. *)
Theorem append_col_df_keeps_input (l : nat) (o : hobj) (args : list val)
    (kw : list (string * val)) (h h' : list hobj) (r : val) :
  (forall v h0 c h1,
     DataFrame_copy v h0 = (Ret c, h1) ->
     h0 `prefix_of` h1 /\
     exists c' l', c = VRef c' l' /\ (length h0 <= l')%nat) ->
  (forall c' l' key x h0 r0 h1,
     DataFrame___setitem__ (VRef c' l') key x h0 = (r0, h1) ->
     forall l0, l0 <> l' -> h1 !! l0 = h0 !! l0) ->
  h !! l = Some o ->
  has_key "self" kw = false -> has_key "func" kw = false ->
  pipe nb (ret (VRef DataFrame l)) (pipeverb nb "append_col") args kw h
  = (Ret r, h') ->
  h' !! l = Some o /\ r <> VRef DataFrame l.
Proof.
  intros Hcopy Hset Hl Hself Hfunc.
  assert (Hcall : call nb "append_col" (VRef DataFrame l :: args) kw
                  = append_col_df DataFrame_copy DataFrame___setitem__
                      (VRef DataFrame l :: args) kw).
  { apply call_exact with
      (<["list" := append_col_df_list]>
         (<[DataFrame := append_col_df DataFrame_copy DataFrame___setitem__]>
            {[ "object" := append_col ]}));
      [apply notebook_append_col|reflexivity]. }
  assert (Hrun : forall r0 h0,
            call nb "append_col" (VRef DataFrame l :: args) kw h = (Ret r0, h0) ->
            h0 !! l = Some o /\ exists c' l', r0 = VRef c' l' /\ l' <> l).
  { intros r0 h0. rewrite Hcall. unfold append_col_df, with_args.
    destruct (bind_args _ _ _) as [vs|]; [|discriminate].
    destruct vs as [|input [|x [|]]]; try discriminate.
    unfold bind.
    destruct (DataFrame_copy input h) as [[c|e] h1] eqn:Hc; [|discriminate].
    destruct (Hcopy _ _ _ _ Hc) as (Hpre & c' & l' & -> & Hl').
    destruct (DataFrame___setitem__ (VRef c' l') (VStr "X") x h1)
      as [[u|e] h2] eqn:Hs; [|discriminate].
    intros [= <- <-].
    assert (l <> l') by (apply lookup_lt_Some in Hl; lia).
    split; [|eauto].
    rewrite (Hset _ _ _ _ _ _ _ Hs) by assumption.
    now apply (prefix_lookup_Some h). }
  intros Hpipe.
  destruct (call nb "append_col" (VRef DataFrame l :: args) kw h)
    as [r0 h0] eqn:Hrun0.
  assert (Hni : r0 <> Ret VNotImplemented).
  { intros ->. destruct (Hrun _ _ eq_refl) as (_ & c' & l' & [=] & _). }
  rewrite (pipe_result nb (ret (VRef DataFrame l)) "append_col" args kw h
             (VRef DataFrame l) h r0 h0) in Hpipe; try done.
  - injection Hpipe as -> ->.
    destruct (Hrun _ _ eq_refl) as (Hl0 & c' & l' & -> & Hne).
    split; [assumption|]. congruence.
  - now apply notebook_DataFrame_hands_over.
Qed.

End NotebookMore.

(** * The helpers for dictionaries *)

(** ** Strings *)

Lemma split_cons sep s : exists x xs, split sep s = x :: xs.
Proof.
  induction s as [|c s IH]; simpl; [eauto|].
  case_decide; [eauto|]. destruct IH as (x & xs & ->). eauto.
Qed.

Lemma split_without sep s : has_char sep s = false -> split sep s = [s].
Proof.
  induction s as [|c s IH]; simpl; [reflexivity|].
  intros Hc. apply orb_false_elim in Hc as [Hc Hs].
  apply bool_decide_eq_false in Hc. rewrite decide_False by assumption.
  now rewrite IH.
Qed.

Lemma split_app sep p q :
  split sep (p +:+ String sep q) = split sep p ++ split sep q.
Proof.
  induction p as [|c p IH]; simpl.
  - now rewrite decide_True.
  - case_decide.
    + now rewrite IH.
    + rewrite IH. destruct (split_cons sep p) as (x & xs & ->). reflexivity.
Qed.

Lemma split_concat sep seg segs :
  Forall (fun x => has_char sep x = false) (seg :: segs) ->
  split sep (String.concat (String sep "") (seg :: segs)) = seg :: segs.
Proof.
  revert seg. induction segs as [|seg' segs IH]; intros seg Hsegs.
  - apply split_without. now inversion Hsegs.
  - apply Forall_cons in Hsegs as [Hseg Hsegs].
    change (String.concat (String sep "") (seg :: seg' :: segs))
      with (seg +:+ String sep (String.concat (String sep "") (seg' :: segs))).
    rewrite split_app, IH by assumption.
    now rewrite split_without.
Qed.

Lemma starts_with_spec text s :
  starts_with text s = true <-> exists post, s = text +:+ post.
Proof.
  revert s. induction text as [|a text IH]; intros s; simpl.
  - split; eauto.
  - destruct s as [|b s].
    + split; [discriminate|]. intros [post Hpost]. discriminate.
    + rewrite andb_true_iff, bool_decide_eq_true, IH. split.
      * intros [-> [post ->]]. eauto.
      * intros [post [= -> ->]]. eauto.
Qed.

(** [contains text s] is Python's [text in s]: [text] occurs in [s]. *)
Lemma contains_spec text s :
  contains text s = true <-> exists pre post, s = pre +:+ text +:+ post.
Proof.
  induction s as [|c s IH]; simpl.
  - rewrite orb_false_r, starts_with_spec. split.
    + intros [post ->]. exists "". eauto.
    + intros (pre & post & Hs). destruct pre; [eauto|discriminate].
  - rewrite orb_true_iff, starts_with_spec, IH. split.
    + intros [[post ->]|(pre & post & ->)].
      * exists "". eauto.
      * exists (String c pre). eauto.
    + intros (pre & post & Hs). destruct pre as [|c' pre].
      * left. eauto.
      * right. injection Hs as -> ->. eauto.
Qed.

(** ** Numerals *)

Lemma digit_pretty_N_char d :
  (d < 10)%N -> digit (pretty_N_char d) = Some d.
Proof.
  intros Hd.
  assert (d = 0 \/ d = 1 \/ d = 2 \/ d = 3 \/ d = 4 \/ d = 5 \/ d = 6 \/
          d = 7 \/ d = 8 \/ d = 9)%N as Hcases by lia.
  repeat destruct Hcases as [->|Hcases]; try reflexivity. now subst.
Qed.

Lemma digits_pretty_N_go x s :
  digits (pretty_N_go x s) 0 = digits s x.
Proof.
  revert s. induction (N.lt_wf_0 x) as [x _ IH]; intros s.
  destruct (decide (x = 0)%N) as [->|Hx]; [reflexivity|].
  rewrite pretty_N_go_step by lia.
  rewrite IH by (apply N.div_lt; lia). simpl.
  rewrite digit_pretty_N_char by (apply N.mod_lt; lia). simpl.
  f_equal. rewrite (N.div_mod x 10) at 3 by lia. reflexivity.
Qed.

Lemma digits_pretty (i : nat) : digits (pretty i) 0 = Some (N.of_nat i).
Proof.
  unfold pretty, pretty_nat, pretty, pretty_N. case_decide as Hi.
  - rewrite Hi. reflexivity.
  - apply digits_pretty_N_go.
Qed.

Lemma digits_without s acc n c :
  digits s acc = Some n -> digit c = None -> has_char c s = false.
Proof.
  revert acc. induction s as [|c' s IH]; intros acc; simpl; [reflexivity|].
  destruct (digit c') as [d|] eqn:Hd; [|discriminate]. simpl.
  intros Hs Hc. rewrite (IH _ Hs Hc), orb_false_r.
  apply bool_decide_eq_false. congruence.
Qed.

(** [str(i)] has no dot in it. *)
Lemma pretty_without_dot (i : nat) : has_char "." (pretty i) = false.
Proof. eapply digits_without; [apply digits_pretty|reflexivity]. Qed.

(** The decimal numerals are read back: [int(str(i)) == i]. *)
Lemma int_decimal_pretty (i : nat) : int_decimal (pretty i) = Some (Z.of_nat i).
Proof.
  pose proof (digits_pretty i) as Hd. unfold int_decimal.
  destruct (pretty i) as [|c s] eqn:Hp.
  - simpl in Hd. injection Hd as Hd. destruct i; discriminate.
  - case_decide as Hc.
    + subst c. discriminate.
    + rewrite Hd. simpl. f_equal. lia.
Qed.

(** ** [get_from_dict] *)

Section GetFromDict.

Variable int : string -> option Z.

Lemma get_from_dict_step_dict entries n :
  get_from_dict_step int (JDict entries) n
  = Ret (default (JStr "None") (dict_get n entries)).
Proof.
  unfold get_from_dict_step. now destruct (int n).
Qed.

(** X12.  In a dictionary, a key that is missing is not reported: the result
    is the string [None].  "Key not found" is raised when the key is there
    and its value is [None].  Any other value of the key is the result. *)
Theorem get_from_dict_key (entries : list (string * json)) (name : string) :
  has_char "." name = false ->
  get_from_dict int (JDict entries) name
  = match dict_get name entries with
    | None => Ret (JStr "None")
    | Some JNull => Raise (key_not_found name name)
    | Some v => Ret v
    end.
Proof.
  intros Hname. unfold get_from_dict. rewrite split_without by assumption.
  simpl. rewrite get_from_dict_step_dict.
  destruct (dict_get name entries) as [[]|]; reflexivity.
Qed.

(** X13.  On a list, a name that [int] reads as an index within the list gives
    the item, counted from the end when negative; an index beyond the
    list, and a name that [int] does not read, raise [AttributeError],
    for a list has no [get], and not "Key not found". *)
Theorem get_from_dict_index (items : list json) (name : string) :
  has_char "." name = false ->
  (forall i v,
     int name = Some i -> 0 <= i -> items !! Z.to_nat i = Some v ->
     v <> JNull ->
     get_from_dict int (JList items) name = Ret v) /\
  (forall i v,
     int name = Some i -> i < 0 -> 0 <= Z.of_nat (length items) + i ->
     items !! Z.to_nat (Z.of_nat (length items) + i) = Some v ->
     v <> JNull ->
     get_from_dict int (JList items) name = Ret v) /\
  (forall i,
     int name = Some i ->
     Z.of_nat (length items) <= i \/ i < - Z.of_nat (length items) ->
     get_from_dict int (JList items) name = Raise AttributeError) /\
  (int name = None ->
   get_from_dict int (JList items) name = Raise AttributeError).
Proof.
  intros Hname. unfold get_from_dict. rewrite split_without by assumption.
  simpl. unfold get_from_dict_step.
  split; [|split; [|split]].
  - intros i v -> Hi Hv Hnull. simpl. unfold index.
    rewrite (proj2 (Z.leb_le 0 i)) by assumption. rewrite Hv.
    now destruct v.
  - intros i v -> Hi Hlen Hv Hnull. simpl. unfold index.
    rewrite (proj2 (Z.leb_gt 0 i)) by assumption.
    rewrite (proj2 (Z.leb_le 0 _)) by assumption. rewrite Hv.
    now destruct v.
  - intros i -> Hi. simpl. unfold index.
    destruct (Z.leb_spec 0 i).
    + rewrite lookup_ge_None_2 by lia. reflexivity.
    + rewrite (proj2 (Z.leb_gt 0 _)) by lia. reflexivity.
  - intros ->. reflexivity.
Qed.

Lemma get_from_dict_loop_name name name' data names v :
  get_from_dict_loop int name data names = Ret v ->
  get_from_dict_loop int name' data names = Ret v.
Proof.
  revert data. induction names as [|n names IH]; intros data; simpl;
    [trivial|].
  destruct (get_from_dict_step int data n) as [[]|]; try discriminate; apply IH.
Qed.

Lemma get_from_dict_loop_app name data ns1 ns2 v :
  get_from_dict_loop int name data (ns1 ++ ns2) = Ret v <->
  exists d, get_from_dict_loop int name data ns1 = Ret d /\
            get_from_dict_loop int name d ns2 = Ret v.
Proof.
  revert data. induction ns1 as [|n ns1 IH]; intros data; simpl.
  - split; [eauto|]. now intros (d & [= ->] & Hv).
  - destruct (get_from_dict_step int data n) as [[]|]; try apply IH;
      (split; [discriminate|]); intros (d & Hd & _); discriminate.
Qed.

(** X14.  A name of two parts with a dot between them is looked up part by
    part: [get_from_dict(data, p + "." + q)] returns [v] exactly when
    [get_from_dict(data, p)] returns some [d] and
    [get_from_dict(d, q)] returns [v]. *)
Theorem get_from_dict_compose (data : json) (p q : string) (v : json) :
  get_from_dict int data (p +:+ "." +:+ q) = Ret v <->
  exists d, get_from_dict int data p = Ret d /\ get_from_dict int d q = Ret v.
Proof.
  unfold get_from_dict.
  change (p +:+ "." +:+ q) with (p +:+ String "." q).
  rewrite split_app, get_from_dict_loop_app. split.
  - intros (d & Hd & Hv). exists d.
    eauto using get_from_dict_loop_name.
  - intros (d & Hd & Hv). exists d.
    eauto using get_from_dict_loop_name.
Qed.

Hypothesis int_str : forall i : nat, int (pretty i) = Some (Z.of_nat i).

Lemma leads_to_null path r : leads_to JNull path r -> r = JNull.
Proof. now inversion 1. Qed.

Lemma get_from_dict_loop_leads name data path r :
  leads_to data path r -> r <> JNull ->
  get_from_dict_loop int name data path = Ret r.
Proof.
  induction 1 as [d|items i v path r Hv Hpath IH|entries k v path r Hv Hpath IH];
    intros Hr; simpl.
  - reflexivity.
  - unfold get_from_dict_step. rewrite int_str. simpl. unfold index.
    rewrite (proj2 (Z.leb_le 0 _)) by lia. rewrite Nat2Z.id, Hv.
    destruct v; try (now apply IH).
    apply leads_to_null in Hpath. contradiction.
  - rewrite get_from_dict_step_dict, Hv. simpl.
    destruct v; try (now apply IH).
    apply leads_to_null in Hpath. contradiction.
Qed.

(** X15.  [get_from_dict] follows a path: if indices into lists, written as
    [str] writes them, and keys of dictionaries, none with a dot in it,
    lead from [data] to a value other than [None], then the name made of
    them with dots in between gets that value. *)
Theorem get_from_dict_follows (data : json) (seg : string)
    (path : list string) (r : json) :
  leads_to data (seg :: path) r ->
  r <> JNull ->
  Forall (fun s => has_char "." s = false) (seg :: path) ->
  get_from_dict int data (String.concat "." (seg :: path)) = Ret r.
Proof.
  intros Hleads Hr Hdots. unfold get_from_dict.
  rewrite split_concat by assumption.
  now apply get_from_dict_loop_leads.
Qed.

End GetFromDict.

(** ** [find_in_dict] *)

Lemma json_ind' (P : json -> Prop) :
  P JNull ->
  (forall b, P (JBool b)) ->
  (forall z, P (JNum z)) ->
  (forall s, P (JStr s)) ->
  (forall items, Forall P items -> P (JList items)) ->
  (forall entries, Forall (fun kv => P kv.2) entries -> P (JDict entries)) ->
  forall data, P data.
Proof.
  intros Hnull Hbool Hnum Hstr Hlist Hdict.
  fix IH 1. intros [|b|z|s|items|entries].
  - exact Hnull.
  - apply Hbool.
  - apply Hnum.
  - apply Hstr.
  - apply Hlist. induction items as [|v items IHitems]; constructor;
      [apply IH|exact IHitems].
  - apply Hdict. induction entries as [|[k v] entries IHentries];
      constructor; [apply IH|exact IHentries].
Qed.

Lemma starts_with_refl text : starts_with text text = true.
Proof.
  induction text as [|c text IH]; simpl; [reflexivity|].
  now rewrite bool_decide_eq_true_2.
Qed.

Lemma contains_refl text : contains text text = true.
Proof. destruct text; simpl; [reflexivity|]. now rewrite bool_decide_eq_true_2, starts_with_refl. Qed.

Lemma search_app text l1 l2 :
  search text (l1 ++ l2)
  = match search text l1 with Missing => search text l2 | o => o end.
Proof.
  induction l1 as [|[] l1 IH]; simpl; try reflexivity.
  now destruct (contains text s).
Qed.

Lemma find_result_weaken text ls stack r :
  find_result text ls stack r -> find_result_top text ls stack r.
Proof.
  unfold find_result, find_result_top.
  destruct (search text ls); try done. intros (seg & path & ->). eauto.
Qed.

Lemma visit_result text rec seg value stack rest ls :
  find_result_top text (leaves value) (stack ++ [seg]) (rec value (stack ++ [seg])) ->
  find_result text ls stack (rest stack) ->
  find_result text (leaves value ++ ls) stack (visit rec seg value stack rest).
Proof.
  unfold find_result_top, find_result, visit. rewrite search_app.
  destruct (search text (leaves value)).
  - intros (path & ->) _. rewrite <- app_assoc. simpl. eauto.
  - intros -> _. reflexivity.
  - intros -> Hrest.
    destruct (stack ++ [seg]) as [|x l] eqn:Hstack.
    { now destruct stack. }
    rewrite <- Hstack, removelast_last. assumption.
Qed.

Lemma _find_result text data :
  forall stack, find_result_top text (leaves data) stack (_find text data stack).
Proof.
  induction data as [|b|z|s|items IH|entries IH] using json_ind';
    intros stack; try reflexivity.
  - unfold find_result_top. simpl.
    destruct (contains text s) eqn:Hs.
    + rewrite orb_true_r. exists []. now rewrite app_nil_r.
    + rewrite orb_false_r.
      case_bool_decide as Heq; [|reflexivity].
      subst s. now rewrite contains_refl in Hs.
  - apply find_result_weaken. simpl. generalize 0%nat as i.
    induction IH as [|v items Hv _ IHitems]; intros i; simpl.
    + reflexivity.
    + apply visit_result; [apply Hv|apply IHitems].
  - apply find_result_weaken. simpl.
    induction IH as [|[k v] entries Hv _ IHentries]; simpl.
    + reflexivity.
    + apply visit_result; [apply Hv|apply IHentries].
Qed.

(** X16.  What [find_in_dict] comes to is decided by the leaves of the data in
    the order of the traversal.  If a string with [text] in it comes
    first, a path is returned.  If a leaf that is no string ([None], a
    boolean, a number) comes before any such string, [TypeError] is
    raised.  "Not found in data" is raised only when every leaf is a
    string without [text] in it. *)
Theorem find_in_dict_outcome (data : json) (text : string) :
  match search text (leaves data) with
  | Found => exists path, find_in_dict data text = Ret path
  | Unsearchable => find_in_dict data text = Raise TypeError
  | Missing => find_in_dict data text = Raise (not_found text)
  end.
Proof.
  pose proof (_find_result text data []) as Hfind.
  unfold find_result_top in Hfind. unfold find_in_dict.
  destruct (search text (leaves data)).
  - destruct Hfind as (path & ->). eauto.
  - now rewrite Hfind.
  - now rewrite Hfind.
Qed.

Lemma _find_false text data stack st :
  _find text data stack = Ret (false, st) -> st = stack.
Proof.
  intros Hfind. pose proof (_find_result text data stack) as Hres.
  unfold find_result_top in Hres. rewrite Hfind in Hres.
  destruct (search text (leaves data)).
  - destruct Hres as (path & [=]).
  - discriminate.
  - congruence.
Qed.

Lemma visit_true text seg value stack rest st :
  visit (_find text) seg value stack rest = Ret (true, st) ->
  _find text value (stack ++ [seg]) = Ret (true, st) \/
  rest stack = Ret (true, st).
Proof.
  unfold visit.
  destruct (_find text value (stack ++ [seg])) as [[[] st']|e] eqn:Hfind;
    try discriminate.
  - intros [= ->]. now left.
  - apply _find_false in Hfind as ->.
    destruct (stack ++ [seg]) as [|x l] eqn:Hstack; [discriminate|].
    rewrite <- Hstack, removelast_last. now right.
Qed.

Lemma find_items_true text items :
  Forall (fun v => forall stack st,
            _find text v stack = Ret (true, st) -> found_at text v stack st)
    items ->
  forall i stack st,
    find_items (_find text) items i stack = Ret (true, st) ->
    exists j v path s,
      items !! j = Some v /\
      st = stack ++ pretty (i + j)%nat :: path /\
      leads_to v path (JStr s) /\
      contains text s = true /\
      Forall (fun seg => has_char "." seg = false) path.
Proof.
  induction 1 as [|v items Hv _ IH]; intros i stack st; simpl; [discriminate|].
  intros Hvisit. apply visit_true in Hvisit as [Hfind|Hrest].
  - apply Hv in Hfind as (path & s & -> & Hleads & Hs & Hdots).
    exists 0%nat, v, path, s. rewrite Nat.add_0_r, <- app_assoc. eauto.
  - apply IH in Hrest as (j & v' & path & s & Hj & -> & Hleads & Hs & Hdots).
    exists (S j), v', path, s. rewrite Nat.add_succ_r. eauto.
Qed.

Lemma find_entries_true text entries :
  Forall (fun kv => forall stack st,
            _find text kv.2 stack = Ret (true, st) ->
            found_at text kv.2 stack st)
    entries ->
  forall stack st,
    find_entries (_find text) entries stack = Ret (true, st) ->
    exists k v path s,
      (k, v) ∈ entries /\
      st = stack ++ k :: path /\
      leads_to v path (JStr s) /\
      contains text s = true /\
      Forall (fun seg => has_char "." seg = false) path.
Proof.
  induction 1 as [|[k v] entries Hv _ IH]; intros stack st; simpl;
    [discriminate|].
  intros Hvisit. apply visit_true in Hvisit as [Hfind|Hrest].
  - apply Hv in Hfind as (path & s & -> & Hleads & Hs & Hdots).
    exists k, v, path, s. rewrite <- app_assoc.
    split; [left|]. eauto.
  - apply IH in Hrest as (k' & v' & path & s & Hin & -> & Hleads & Hs & Hdots).
    exists k', v', path, s. split; [now right|]. eauto.
Qed.

Lemma dict_get_NoDup entries k v :
  NoDup entries.*1 -> (k, v) ∈ entries -> dict_get k entries = Some v.
Proof.
  induction entries as [|[k' v'] entries IH]; simpl; intros Hnodup Hin.
  - inversion Hin.
  - apply NoDup_cons in Hnodup as [Hk' Hnodup].
    apply elem_of_cons in Hin as [[= -> ->]|Hin].
    + now rewrite decide_True.
    + rewrite decide_False; [now apply IH|].
      intros ->. apply Hk'. apply list_elem_of_fmap. now exists (k, v).
Qed.

Lemma _find_true text data :
  proper data = true ->
  forall stack st,
    _find text data stack = Ret (true, st) -> found_at text data stack st.
Proof.
  induction data as [|b|z|s|items IH|entries IH] using json_ind';
    intros Hproper stack st; try discriminate.
  - simpl. intros [= Hs <-]. exists [], s. rewrite app_nil_r.
    split; [reflexivity|]. split; [constructor|]. split; [|constructor].
    apply orb_true_iff in Hs as [Hs|Hs]; [|assumption].
    apply bool_decide_eq_true in Hs as ->. apply contains_refl.
  - simpl in *. intros Hfind.
    apply find_items_true in Hfind
      as (j & v & path & s & Hj & -> & Hleads & Hs & Hdots).
    + exists (pretty j :: path), s. split; [reflexivity|].
      split; [now apply leads_item with v|]. split; [assumption|].
      constructor; [apply pretty_without_dot|assumption].
    + rewrite forallb_forall in Hproper.
      rewrite Forall_forall in IH |- *. intros v Hv. apply IH; [assumption|].
      apply Hproper. now apply list_elem_of_In.
  - simpl in *. apply andb_prop in Hproper as [Hnodup Hproper].
    apply bool_decide_eq_true in Hnodup.
    rewrite forallb_forall in Hproper. intros Hfind.
    apply find_entries_true in Hfind
      as (k & v & path & s & Hin & -> & Hleads & Hs & Hdots).
    + exists (k :: path), s. split; [reflexivity|].
      split; [apply leads_entry with v; auto using dict_get_NoDup|].
      split; [assumption|]. constructor; [|assumption].
      apply list_elem_of_In, Hproper, andb_prop in Hin as [Hk _].
      now apply negb_true_iff in Hk.
    + rewrite Forall_forall in IH |- *. intros kv Hkv. apply IH; [assumption|].
      apply list_elem_of_In, Hproper, andb_prop in Hkv as [_ Hv]. assumption.
Qed.

(** X17.  What [find_in_dict] returns, [get_from_dict] takes.  For a list or a
    dictionary in which no key has a dot: if [find_in_dict(data, text)]
    returns a name, then [get_from_dict(data, name)] returns a string that
    has [text] in it.  [int] has to read the indices that [str] wrote. *)
Theorem find_then_get (int : string -> option Z) (data : json)
    (text name : string) :
  (forall i : nat, int (pretty i) = Some (Z.of_nat i)) ->
  proper data = true ->
  (forall s, data <> JStr s) ->
  find_in_dict data text = Ret name ->
  exists s, get_from_dict int data name = Ret (JStr s) /\ contains text s = true.
Proof.
  intros Hint Hproper Hdata. unfold find_in_dict.
  destruct (_find text data []) as [[[] st]|e] eqn:Hfind; try discriminate.
  intros [= <-].
  apply _find_true in Hfind as (path & s & -> & Hleads & Hs & Hdots);
    [|assumption].
  exists s. split; [|assumption]. simpl.
  destruct path as [|seg path].
  - inversion Hleads; subst. now destruct (Hdata s).
  - unfold get_from_dict. rewrite split_concat by assumption.
    apply get_from_dict_loop_leads; [assumption..|discriminate].
Qed.

(** ** Instances of the further theorems *)

Lemma make_pipesource_unrelated_witness :
  rshift Frames.after (VInt 1) (VVerb "head" [] [])
  = rshift Frames.before (VInt 1) (VVerb "head" [] []).
Proof.
  apply (make_pipesource_unrelated Frames.before Frames.Frame (VInt 1)
           (VVerb "head" [] [])).
  compute_done.
Defined.

Lemma make_pipesource_enables_witness :
  rshift Frames.after Frames.frame (VVerb "head" [] []) Frames.frame_heap
  = call Frames.after "head" [Frames.frame] [] Frames.frame_heap /\
  make_pipesource (classes Frames.after) Frames.Frame
  = (Ret (), classes Frames.after).
Proof.
  apply (make_pipesource_enables Frames.before Frames.Frame
           Frames.Frame___rshift__ (classes Frames.after) Frames.Frame
           [] ["object"] Frames.frame "head" [] [] Frames.frame_heap).
  - reflexivity.
  - reflexivity.
  - reflexivity.
  - reflexivity.
  - intros k Hk. inversion Hk.
  - reflexivity.
  - discriminate.
Defined.

Lemma pipe_enabled_calls_twice_witness :
  rshift marking_world Frames.frame (VVerb "marking" [] []) Frames.frame_heap
  = (Raise TypeError, Frames.frame_heap ++ [HObj []; HObj []]).
Proof.
  apply (pipe_enabled_calls_twice marking_world Frames.frame "marking" [] []
           Frames.frame_heap (Frames.frame_heap ++ [HObj []])
           (Frames.frame_heap ++ [HObj []; HObj []]));
    reflexivity.
Defined.

Lemma pipeline_is_nested_call_witness :
  pipeline Pandas.session (ret Pandas.df)
    [Stage "groupby" [VStr "b"] []; Stage "summarize_mean" [] [];
     Stage "append_col" [] [("x", VInt 3)]]
    Pandas.df_heap
  = nested Pandas.session Pandas.df
      [Stage "groupby" [VStr "b"] []; Stage "summarize_mean" [] [];
       Stage "append_col" [] [("x", VInt 3)]]
      Pandas.df_heap.
Proof.
  apply (pipeline_is_nested_call Pandas.session Pandas.df).
  vm_compute. repeat split; discriminate.
Defined.

Lemma register_then_call_witness :
  exists w',
    decorated_register Frames.before (pipeverb Frames.before "head") "list"
      Frames.same = Some w' /\
    call w' "head" [VRef "list" 0%nat] [] = Frames.same [VRef "list" 0%nat] [].
Proof.
  eexists. split; [reflexivity|].
  eapply (proj1 (register_then_call Frames.before _ "head" "list" Frames.same
                   eq_refl)).
  reflexivity.
Defined.

Lemma plain_pipeverb_witness :
  pipe Frames.before (ret (VRef "list" 0%nat)) (pipeverb Frames.before "same")
    [] [] [HList [VInt 1]]
  = Frames.same [VRef "list" 0%nat] [] [HList [VInt 1]].
Proof.
  apply (plain_pipeverb Frames.before "same" Frames.same (VRef "list" 0%nat)
           [] [] [HList [VInt 1]]).
  - reflexivity.
  - discriminate.
  - exact I.
  - reflexivity.
  - reflexivity.
  - discriminate.
Defined.

Lemma my_verb_both_versions_witness :
  pipe Pandas.session (ret (VRef "list" 0%nat))
    (pipeverb Pandas.session "my_verb_") [] [("x", VInt 2); ("y", VInt 3)]
    [HList [VInt 1]]
  = call Pandas.session "my_verb_" [VRef "list" 0%nat]
      [("x", VInt 2); ("y", VInt 3)] [HList [VInt 1]].
Proof.
  apply (my_verb_both_versions Pandas.copy Pandas.setitem Pandas.groupby
           Pandas.mean None (VRef "list" 0%nat) []
           [("x", VInt 2); ("y", VInt 3)] [HList [VInt 1]]).
  - discriminate.
  - exact I.
  - reflexivity.
  - reflexivity.
Defined.

Lemma my_verb_generic_raises_TypeError_witness :
  call Pandas.session "my_verb_" [VInt 1] [] [] = (Raise TypeError, []).
Proof.
  apply (my_verb_generic_raises_TypeError Pandas.copy Pandas.setitem
           Pandas.groupby Pandas.mean None (VInt 1) [] [] []).
  vm_compute. constructor; [right; reflexivity|].
  constructor; [left; reflexivity|]. constructor.
Defined.

Lemma append_col_list_is_fresh_witness :
  exists out h',
    pipe Pandas.session (ret (VRef "list" 0%nat))
      (pipeverb Pandas.session "append_col") [VInt 7] [] [HList [VInt 1; VInt 2]]
    = (Ret out, h') /\
    list_items h' out = Some ([VInt 1; VInt 2] ++ [VInt 7]) /\
    out <> VRef "list" 0%nat /\
    [HList [VInt 1; VInt 2]] `prefix_of` h'.
Proof.
  apply (append_col_list_is_fresh Pandas.copy Pandas.setitem Pandas.groupby
           Pandas.mean None 0%nat [VInt 1; VInt 2] (VInt 7) [VInt 7] []
           [HList [VInt 1; VInt 2]]);
    reflexivity.
Defined.

Lemma append_col_df_keeps_input_witness :
  (Pandas.df_heap
     ++ [HObj [VStr "a"; VRef "list" 0%nat; VStr "b"; VRef "list" 1%nat;
               VStr "X"; VInt 3]]) !! 2%nat
  = Pandas.df_heap !! 2%nat /\
  VRef DataFrame 3%nat <> VRef DataFrame 2%nat.
Proof.
  apply (append_col_df_keeps_input Pandas.copy Pandas.setitem Pandas.groupby
           Pandas.mean None 2%nat
           (HObj [VStr "a"; VRef "list" 0%nat; VStr "b"; VRef "list" 1%nat])
           [] [("x", VInt 3)] Pandas.df_heap).
  - intros v h0 c h1. unfold Pandas.copy. destruct v; try discriminate.
    unfold bind, load, alloc, ret. destruct (h0 !! l); [|discriminate].
    intros [= <- <-]. split; [now apply prefix_app_r|]. eauto.
  - intros c' l' key x h0 r0 h1. unfold Pandas.setitem, bind, load, store.
    destruct (h0 !! l') as [[]|]; intros [= <- <-] l0 Hl0; try reflexivity.
    now apply list_lookup_insert_ne.
  - reflexivity.
  - reflexivity.
  - reflexivity.
  - reflexivity.
Defined.

Lemma get_from_dict_key_witness :
  get_from_dict int_decimal (JDict [("a", JNum 1); ("b", JNull)]) "c"
  = Ret (JStr "None").
Proof.
  apply (get_from_dict_key int_decimal [("a", JNum 1); ("b", JNull)] "c").
  reflexivity.
Defined.

Lemma get_from_dict_index_witness :
  get_from_dict int_decimal (JList [JNum 1; JNum 2]) "2" = Raise AttributeError.
Proof.
  apply (proj1 (proj2 (proj2
           (get_from_dict_index int_decimal [JNum 1; JNum 2] "2" eq_refl)))
           2).
  - reflexivity.
  - left. reflexivity.
Defined.

Lemma get_from_dict_follows_witness :
  get_from_dict int_decimal post_data (String.concat "." ["result"; "0"; "name"])
  = Ret (JStr "Jan Schulz").
Proof.
  change ["result"; "0"; "name"] with ["result"; pretty 0%nat; "name"].
  apply (get_from_dict_follows int_decimal int_decimal_pretty post_data
           "result" [pretty 0%nat; "name"] (JStr "Jan Schulz")).
  - eapply leads_entry; [reflexivity|].
    eapply (leads_item _ 0); [reflexivity|].
    eapply leads_entry; [reflexivity|]. apply leads_here.
  - discriminate.
  - repeat constructor.
Defined.

Lemma find_then_get_witness :
  exists s,
    get_from_dict int_decimal post_data "result.0.name" = Ret (JStr s) /\
    contains "Schulz" s = true.
Proof.
  apply (find_then_get int_decimal post_data "Schulz" "result.0.name").
  - exact int_decimal_pretty.
  - reflexivity.
  - discriminate.
  - reflexivity.
Defined.


Lemma get_from_dict_compose_witness :
  get_from_dict int_decimal post_data ("result.0" +:+ "." +:+ "name")
  = Ret (JStr "Jan Schulz").
Proof.
  apply (proj2 (get_from_dict_compose int_decimal post_data "result.0" "name"
                  (JStr "Jan Schulz"))).
  exists (JDict [("name", JStr "Jan Schulz")]). split; reflexivity.
Defined.
